(** * Contact relay: identifier derivation, validation, rendering, dispatch

    A shallow embedding of [src/lib/id.ts] and [src/app/api/send/route.ts].

    Strings.  A JavaScript string is a sequence of UTF-16 code units; the
    embedding uses [string], whose characters are the code units 0..255
    (U+0000 .. U+00FF), so [String.length] is JavaScript's [.length] on that
    range.  Regular expressions of the source carry no [u] flag and work
    code unit by code unit.

    Libraries.  [zod], Node's [crypto] and the [resend] client are not part
    of the repository.  The string checks of [zod] and HMAC-SHA256 are
    modelled from their published definitions; the e-mail provider is a
    parameter of the request handler. *)

From stdpp Require Import gmap strings.
#[local] Set Warnings "-register-all".
From Stdlib Require Import String Ascii List ZArith Lia Bool.
Import ListNotations.

(** ** JavaScript string primitives used by the sources *)

Module Js.
Local Open Scope string_scope.

Definition code (c : ascii) : nat := nat_of_ascii c.

(** [c] lies between the code units [lo] and [hi], both included. *)
Definition between (lo hi : nat) (c : ascii) : bool :=
  (lo <=? code c)%nat && (code c <=? hi)%nat.

(** ECMAScript [WhiteSpace] and [LineTerminator] below U+0100: TAB, LF, VT,
    FF, CR, SPACE and NO-BREAK SPACE.  This is the class [\s], and the set
    [String.prototype.trim] removes. *)
Definition isWhiteSpace (c : ascii) : bool :=
  between 9 13 c || (code c =? 32)%nat || (code c =? 160)%nat.

Fixpoint trimStart (s : string) : string :=
  match s with
  | EmptyString => EmptyString
  | String c s' => if isWhiteSpace c then trimStart s' else s
  end.

(** [trimEnd] drops a character exactly when it is white space and
    everything after it has been dropped as well. *)
Fixpoint trimEnd (s : string) : string :=
  match s with
  | EmptyString => EmptyString
  | String c s' =>
      match trimEnd s' with
      | EmptyString => if isWhiteSpace c then EmptyString else String c EmptyString
      | t => String c t
      end
  end.

Definition trim (s : string) : string := trimEnd (trimStart s).

(** [s.replace(/\s+/g, r)]: every maximal run of white space becomes [r]. *)
Fixpoint replaceWhiteSpaceRuns (r : string) (s : string) : string :=
  match s with
  | EmptyString => EmptyString
  | String c s' =>
      if isWhiteSpace c then
        match s' with
        | String c' _ =>
            if isWhiteSpace c' then replaceWhiteSpaceRuns r s'
            else r ++ replaceWhiteSpaceRuns r s'
        | EmptyString => r
        end
      else String c (replaceWhiteSpaceRuns r s')
  end.

(** Unicode lower-casing of one code unit below U+0100: A..Z, and the
    Latin-1 capitals U+00C0..U+00DE except the multiplication sign U+00D7,
    move up by 32; nothing else changes.  (Above U+00FF, outside these
    strings, two characters lower-case to ASCII letters: U+212A to k and
    U+0130 to i followed by U+0307.) *)
Definition toLowerChar (c : ascii) : ascii :=
  if between 65 90 c || (between 192 222 c && negb (code c =? 215)%nat)
  then ascii_of_nat (code c + 32)
  else c.

Fixpoint toLowerCase (s : string) : string :=
  match s with
  | EmptyString => EmptyString
  | String c s' => String (toLowerChar c) (toLowerCase s')
  end.

(** [s.replace(/c/g, r)] for a pattern that is the single character [c]. *)
Fixpoint replaceAll (c : ascii) (r : string) (s : string) : string :=
  match s with
  | EmptyString => EmptyString
  | String a s' =>
      (if Ascii.eqb a c then r else String a EmptyString) ++ replaceAll c r s'
  end.

(** [s.replace(/[^a-z]/g, '')]. *)
Fixpoint removeNonLowerLetters (s : string) : string :=
  match s with
  | EmptyString => EmptyString
  | String a s' =>
      if between 97 122 a then String a (removeNonLowerLetters s')
      else removeNonLowerLetters s'
  end.

(** [s.includes(pat)]. *)
Fixpoint includes (pat s : string) : bool :=
  String.prefix pat s ||
  match s with
  | EmptyString => false
  | String _ s' => includes pat s'
  end.

(** [o ? yes(o) : no] for a value that is a string or [undefined]: it is
    truthy when it is a string that is not empty. *)
Definition ifTruthy {A : Type} (o : option string) (yes : string -> A) (no : A) : A :=
  match o with
  | Some (String c s) => yes (String c s)
  | _ => no
  end.

(** [o || d]. *)
Definition orElse (o : option string) (d : string) : string :=
  ifTruthy o (fun s => s) d.

(** UTF-8 encoding of a string of code units below U+0100, as [Buffer]
    encodes a string handed to [crypto]. *)
Fixpoint utf8 (s : string) : list Z :=
  match s with
  | EmptyString => []
  | String c s' =>
      let n := Z.of_nat (code c) in
      if (n <? 128)%Z then n :: utf8 s'
      else Z.lor 192 (Z.shiftr n 6) :: Z.lor 128 (Z.land n 63) :: utf8 s'
  end.

End Js.

(** ** SHA-256 (FIPS 180-4) and HMAC (RFC 2104) on 32-bit words held in [Z] *)

Module Sha256.
Local Open Scope Z_scope.

Definition wrap (x : Z) : Z := x mod 2 ^ 32.
Definition add32 (x y : Z) : Z := wrap (x + y).
Definition not32 (x : Z) : Z := Z.lxor x (2 ^ 32 - 1).
Definition rotr (n x : Z) : Z := Z.lor (Z.shiftr x n) (wrap (Z.shiftl x (32 - n))).

Definition Ch (x y z : Z) : Z := Z.lxor (Z.land x y) (Z.land (not32 x) z).
Definition Maj (x y z : Z) : Z :=
  Z.lxor (Z.lxor (Z.land x y) (Z.land x z)) (Z.land y z).
Definition bigSigma0 (x : Z) : Z := Z.lxor (Z.lxor (rotr 2 x) (rotr 13 x)) (rotr 22 x).
Definition bigSigma1 (x : Z) : Z := Z.lxor (Z.lxor (rotr 6 x) (rotr 11 x)) (rotr 25 x).
Definition smallSigma0 (x : Z) : Z := Z.lxor (Z.lxor (rotr 7 x) (rotr 18 x)) (Z.shiftr x 3).
Definition smallSigma1 (x : Z) : Z := Z.lxor (Z.lxor (rotr 17 x) (rotr 19 x)) (Z.shiftr x 10).

(** The constants are defined the way the standard defines them: the first
    32 bits of the fractional parts of the square roots (initial hash) and
    cube roots (round constants) of the first primes. *)
Definition isPrime (n : nat) : bool :=
  (2 <=? n)%nat && forallb (fun d => negb (n mod d =? 0)%nat) (seq 2 (n - 2)).

Definition primes64 : list Z :=
  Eval vm_compute in map Z.of_nat (filter isPrime (seq 2 310)).

(** Largest [r] below [2 ^ bits] with [r ^ 3 <= n], found bit by bit. *)
Fixpoint cubeRoot (bits : nat) (n r : Z) : Z :=
  match bits with
  | O => r
  | S b =>
      let r' := r + 2 ^ Z.of_nat b in
      if r' * r' * r' <=? n then cubeRoot b n r' else cubeRoot b n r
  end.

Definition K : list Z :=
  Eval vm_compute in map (fun p => wrap (cubeRoot 40 (p * 2 ^ 96) 0)) primes64.

Record state := mkState { sa : Z; sb : Z; sc : Z; sd : Z; se : Z; sf : Z; sg : Z; sh : Z }.

Definition H0 : state :=
  Eval vm_compute in
    let h i := wrap (Z.sqrt (nth i primes64 0 * 2 ^ 64)) in
    mkState (h 0%nat) (h 1%nat) (h 2%nat) (h 3%nat) (h 4%nat) (h 5%nat) (h 6%nat) (h 7%nat).

Definition round (k w : Z) (s : state) : state :=
  let t1 := add32 (add32 (add32 (add32 (sh s) (bigSigma1 (se s))) (Ch (se s) (sf s) (sg s))) k) w in
  let t2 := add32 (bigSigma0 (sa s)) (Maj (sa s) (sb s) (sc s)) in
  mkState (add32 t1 t2) (sa s) (sb s) (sc s) (add32 (sd s) t1) (se s) (sf s) (sg s).

(** The message schedule is kept as a window of sixteen words: the head is
    the word of the current round, and the word sixteen rounds ahead is
    appended. *)
Fixpoint rounds (ks : list Z) (win : list Z) (s : state) : state :=
  match ks, win with
  | k :: ks', w0 :: rest =>
      let w16 :=
        add32 (add32 (smallSigma1 (nth 13 rest 0)) (nth 8 rest 0))
              (add32 (smallSigma0 (nth 0 rest 0)) w0) in
      rounds ks' (rest ++ [w16])%list (round k w0 s)
  | _, _ => s
  end.

Definition compress (h : state) (block : list Z) : state :=
  let s := rounds K block h in
  mkState (add32 (sa h) (sa s)) (add32 (sb h) (sb s)) (add32 (sc h) (sc s))
          (add32 (sd h) (sd s)) (add32 (se h) (se s)) (add32 (sf h) (sf s))
          (add32 (sg h) (sg s)) (add32 (sh h) (sh s)).

(** Big-endian bytes of a number, [n] of them. *)
Fixpoint bytesOf (n : nat) (x : Z) : list Z :=
  match n with
  | O => []
  | S n' => (Z.shiftr x (8 * Z.of_nat n')) mod 256 :: bytesOf n' x
  end.

Fixpoint wordsOf (bs : list Z) : list Z :=
  match bs with
  | b0 :: b1 :: b2 :: b3 :: rest =>
      (((b0 * 256 + b1) * 256 + b2) * 256 + b3) :: wordsOf rest
  | _ => []
  end.

Definition pad (msg : list Z) : list Z :=
  let len := Z.of_nat (List.length msg) in
  (msg ++ [128] ++ repeat 0 (Z.to_nat ((55 - len) mod 64)) ++ bytesOf 8 (8 * len))%list.

Fixpoint blocks (fuel : nat) (ws : list Z) : list (list Z) :=
  match fuel, ws with
  | S f, _ :: _ => firstn 16 ws :: blocks f (skipn 16 ws)
  | _, _ => []
  end.

Definition digestBytes (s : state) : list Z :=
  (bytesOf 4 (sa s) ++ bytesOf 4 (sb s) ++ bytesOf 4 (sc s) ++ bytesOf 4 (sd s) ++
   bytesOf 4 (se s) ++ bytesOf 4 (sf s) ++ bytesOf 4 (sg s) ++ bytesOf 4 (sh s))%list.

Definition sha256 (msg : list Z) : list Z :=
  let ws := wordsOf (pad msg) in
  digestBytes (fold_left compress (blocks (List.length ws) ws) H0).

(** HMAC with SHA-256: block size 64 bytes, a longer key is hashed first. *)
Definition hmacKey (key : list Z) : list Z :=
  let k := if (64 <? Z.of_nat (List.length key)) then sha256 key else key in
  (k ++ repeat 0 (64 - List.length k))%list.

Definition hmac (key msg : list Z) : list Z :=
  let k := hmacKey key in
  sha256 (map (Z.lxor 92) k ++ sha256 (map (Z.lxor 54) k ++ msg))%list.

Definition hexDigit (n : Z) : ascii :=
  let d := n mod 16 in
  ascii_of_nat (Z.to_nat (if d <? 10 then 48 + d else 87 + d)).

(** [digest('hex')]: two lower-case hexadecimal digits per byte. *)
Fixpoint hex (bs : list Z) : string :=
  match bs with
  | [] => EmptyString
  | b :: bs' => String (hexDigit (b / 16)) (String (hexDigit b) (hex bs'))
  end.

End Sha256.

(** ** src/lib/id.ts *)

Module Id.
Local Open Scope string_scope.

(** [process.env], as far as the sources read it. *)
Record Env := mkEnv {
  HASH_SECRET : option string;
  RESEND_API_KEY : option string;
  RESEND_FROM : option string
}.

Definition normalizeName (name : string) : string :=
  Js.removeNonLowerLetters
    (Js.toLowerCase (Js.replaceWhiteSpaceRuns " " (Js.trim name))).

Definition makeHashedId (env : Env) (firstName : string) : string :=
  let normalized := normalizeName firstName in
  let secret := Js.orElse (HASH_SECRET env) "default-secret" in
  String.substring 0 16
    (Sha256.hex (Sha256.hmac (Js.utf8 secret) (Js.utf8 normalized))).

End Id.

(** ** The [zod] schemas of the sources *)

Module Zod.
Local Open Scope string_scope.

(** A parsed JSON document, the value [request.json()] resolves to.  The
    sources never inspect a number, so its value is kept as an integer. *)
Inductive json :=
| JNull
| JBool (b : bool)
| JNumber (n : Z)
| JString (s : string)
| JArray (items : list json)
| JObject (members : list (string * json)).

(** [data[key]] on a parsed object, whose members are listed with each key
    once; [None] is [undefined]. *)
Fixpoint member (key : string) (members : list (string * json)) : option json :=
  match members with
  | [] => None
  | (k, v) :: rest => if String.eqb k key then Some v else member key rest
  end.

Inductive IssueCode := invalid_type | too_small | too_big | invalid_email.

(** One entry of [ZodError.issues]: the key of the offending member (the
    empty path for the document itself) and the kind of failure. *)
Record Issue := mkIssue { path : list string; code : IssueCode }.

Inductive Check := Min (n : nat) | Max (n : nat) | Email.

Definition isDigit (c : ascii) : bool := Js.between 48 57 c.
Definition isLetter (c : ascii) : bool := Js.between 65 90 c || Js.between 97 122 c.
Definition isAlnum (c : ascii) : bool := isLetter c || isDigit c.
Definition oneOf (cs : string) (c : ascii) : bool :=
  match String.index 0 (String c EmptyString) cs with Some _ => true | None => false end.

Fixpoint all (p : ascii -> bool) (s : string) : bool :=
  match s with
  | EmptyString => true
  | String c s' => p c && all p s'
  end.

Fixpoint lastChar (s : string) : option ascii :=
  match s with
  | EmptyString => None
  | String c EmptyString => Some c
  | String _ s' => lastChar s'
  end.

(** [s.split(sep)] for a separator of one character. *)
Fixpoint splitOn (sep : ascii) (s : string) : list string :=
  match s with
  | EmptyString => [EmptyString]
  | String c s' =>
      match splitOn sep s' with
      | part :: parts =>
          if Ascii.eqb c sep then EmptyString :: part :: parts
          else String c part :: parts
      | [] => []
      end
  end.

(** A domain label, [[A-Za-z0-9][A-Za-z0-9\-]*]. *)
Definition isLabel (s : string) : bool :=
  match s with
  | EmptyString => false
  | String c s' => isAlnum c && all (fun a => isAlnum a || oneOf "-" a) s'
  end.

(** The top-level domain, [[A-Za-z]{2,}]. *)
Definition isTld (s : string) : bool := all isLetter s && (2 <=? String.length s)%nat.

Fixpoint isDomain (parts : list string) : bool :=
  match parts with
  | [] => false
  | [_] => false
  | [l; tld] => isLabel l && isTld tld
  | l :: rest => isLabel l && isDomain rest
  end.

(** The local part, [[A-Za-z0-9_'+\-\.]*[A-Za-z0-9_+-]]. *)
Definition isLocal (s : string) : bool :=
  all (fun a => isAlnum a || oneOf "_'+-." a) s &&
  match lastChar s with
  | Some c => isAlnum c || oneOf "_+-" c
  | None => false
  end.

(** The pattern behind [z.string().email()], piece by piece:
    [^], the look-aheads [(?!\.)] and [(?!.*\.\.)], a local part of any
    number of [A-Za-z0-9_'+\-\.] closed by one of [A-Za-z0-9_+-], an [@],
    one or more labels [A-Za-z0-9][A-Za-z0-9\-]* each followed by a dot,
    a top-level domain [A-Za-z]{2,}, and [$].
    Neither side of the [@] can hold an [@] and no label holds a dot, so
    the match is a split at the one [@] and at the dots of the domain; the
    two look-aheads forbid a leading dot and two dots in a row. *)
Definition isEmail (s : string) : bool :=
  negb (String.prefix "." s) && negb (Js.includes ".." s) &&
  match splitOn "@" s with
  | [local; domain] => isLocal local && isDomain (splitOn "." domain)
  | _ => false
  end.

Definition passes (c : Check) (s : string) : bool :=
  match c with
  | Min n => (n <=? String.length s)%nat
  | Max n => (String.length s <=? n)%nat
  | Email => isEmail s
  end.

Definition codeOf (c : Check) : IssueCode :=
  match c with
  | Min _ => too_small
  | Max _ => too_big
  | Email => invalid_email
  end.

(** A string schema runs every check, in the order written, and reports
    each one that fails. *)
Definition runChecks (checks : list Check) (s : string) : list IssueCode :=
  flat_map (fun c => if passes c s then [] else [codeOf c]) checks.

(** [z.string()...] applied to a member; [optional] admits [undefined]
    (but not [null]).  The result is the parsed value and the issues. *)
Definition parseString (optional : bool) (checks : list Check) (v : option json)
  : option string * list IssueCode :=
  match v with
  | None => (None, if optional then [] else [invalid_type])
  | Some (JString s) => (Some s, runChecks checks s)
  | Some _ => (None, [invalid_type])
  end.

Definition at_ (key : string) (codes : list IssueCode) : list Issue :=
  map (mkIssue [key]) codes.

End Zod.

(** ** src/data/staff.ts *)

Module Staff.

Record StaffRecord := mkStaff { firstName : string; email : string }.

(** What [STAFF_BY_ID[id]] evaluates to when it is not [undefined]: an own
    entry of the generated object, or a member every plain object inherits
    from [Object.prototype] (a function or object: truthy, and without an
    [email] of its own). *)
Inductive Member := Own (r : StaffRecord) | Inherited.

Definition objectPrototypeKeys : list string :=
  [ "constructor"; "hasOwnProperty"; "isPrototypeOf"; "propertyIsEnumerable";
    "toLocaleString"; "toString"; "valueOf"; "__proto__";
    "__defineGetter__"; "__defineSetter__"; "__lookupGetter__"; "__lookupSetter__" ]%string.

(** [STAFF_BY_ID[id]].  The generated module [src/data/staff.ts] is not
    among the sources, so the object is a parameter, given by its own
    entries.  It is a plain object, and a property read that finds no own
    entry goes on to [Object.prototype]. *)
Definition get (STAFF_BY_ID : gmap string StaffRecord) (id : string) : option Member :=
  match STAFF_BY_ID !! id with
  | Some r => Some (Own r)
  | None =>
      if existsb (String.eqb id) objectPrototypeKeys then Some Inherited else None
  end.

Definition emailOf (m : Member) : option string :=
  match m with
  | Own r => Some (email r)
  | Inherited => None
  end.

End Staff.

(** ** src/app/api/send/route.ts *)

Module Route.
Import Id.
Local Open Scope string_scope.

Definition nl : string := String (ascii_of_nat 10) EmptyString.
Definition quote : ascii := ascii_of_nat 34.
Definition dq : string := String quote EmptyString.

(** The value [sendSchema.parse] returns, [z.infer<typeof sendSchema>]. *)
Record Payload := mkPayload {
  staffId : string;
  name : string;
  email : string;
  subject : option string;
  message : string
}.

(** [sendSchema.parse(body)]: the issues of all members, in the order of
    the schema, or the typed payload when there is none.  Members the
    schema does not name are dropped. *)
Definition sendSchema (body : Zod.json) : Payload + list Zod.Issue :=
  match body with
  | Zod.JObject ms =>
      let '(vStaffId, iStaffId) :=
        Zod.parseString false [Zod.Min 8; Zod.Max 128] (Zod.member "staffId" ms) in
      let '(vName, iName) :=
        Zod.parseString false [Zod.Min 1; Zod.Max 120] (Zod.member "name" ms) in
      let '(vEmail, iEmail) :=
        Zod.parseString false [Zod.Email; Zod.Max 254] (Zod.member "email" ms) in
      let '(vSubject, iSubject) :=
        Zod.parseString true [Zod.Max 200] (Zod.member "subject" ms) in
      let '(vMessage, iMessage) :=
        Zod.parseString false [Zod.Min 1; Zod.Max 5000] (Zod.member "message" ms) in
      match vStaffId, vName, vEmail, vMessage,
            (Zod.at_ "staffId" iStaffId ++ Zod.at_ "name" iName ++ Zod.at_ "email" iEmail ++
             Zod.at_ "subject" iSubject ++ Zod.at_ "message" iMessage)%list with
      | Some i, Some n, Some e, Some m, [] => inl (mkPayload i n e vSubject m)
      | _, _, _, _, issues => inr issues
      end
  | _ => inr [Zod.mkIssue [] Zod.invalid_type]
  end.

Definition sanitizeHtml (text : string) : string :=
  Js.replaceAll "/" "&#x2F;"
    (Js.replaceAll "'" "&#x27;"
      (Js.replaceAll quote "&quot;"
        (Js.replaceAll ">" "&gt;"
          (Js.replaceAll "<" "&lt;" text)))).

(** The fixed text of the HTML template literal, between its holes. *)
Definition html0 : string := Eval cbv in
  nl ++ "    <!DOCTYPE html>" ++ nl ++ "    <html>" ++ nl ++ "    <head>" ++ nl ++
  "      <meta charset=" ++ dq ++ "utf-8" ++ dq ++ ">" ++ nl ++ "      <title>".

Definition html1 : string := Eval cbv in
  "</title>" ++ nl ++ "    </head>" ++ nl ++
  "    <body style=" ++ dq ++ "font-family: Arial, sans-serif; line-height: 1.6; color: #333;" ++ dq ++ ">" ++ nl ++
  "      <div style=" ++ dq ++ "max-width: 600px; margin: 0 auto; padding: 20px;" ++ dq ++ ">" ++ nl ++
  "        <h2 style=" ++ dq ++ "color: #2563eb;" ++ dq ++ ">New Contact Form Submission</h2>" ++ nl ++
  "        " ++ nl ++
  "        <div style=" ++ dq ++ "background: #f8fafc; padding: 20px; border-radius: 8px; margin: 20px 0;" ++ dq ++ ">" ++ nl ++
  "          <p><strong>From:</strong> ".

Definition html2 : string := " (".

Definition html3 : string := Eval cbv in ")</p>" ++ nl ++ "          ".

Definition html4 : string := Eval cbv in
  nl ++ "        </div>" ++ nl ++ "        " ++ nl ++
  "        <div style=" ++ dq ++ "background: #ffffff; padding: 20px; border: 1px solid #e2e8f0; border-radius: 8px;" ++ dq ++ ">" ++ nl ++
  "          <h3 style=" ++ dq ++ "margin-top: 0;" ++ dq ++ ">Message:</h3>" ++ nl ++
  "          <p style=" ++ dq ++ "white-space: pre-wrap;" ++ dq ++ ">".

Definition html5 : string := Eval cbv in
  "</p>" ++ nl ++ "        </div>" ++ nl ++ "        " ++ nl ++
  "        <div style=" ++ dq ++ "margin-top: 20px; padding: 20px; background: #f1f5f9; border-radius: 8px; font-size: 14px; color: #64748b;" ++ dq ++ ">" ++ nl ++
  "          <p><strong>Note:</strong> You can reply directly to this email to respond to ".

Definition html6 : string := Eval cbv in
  ".</p>" ++ nl ++ "        </div>" ++ nl ++ "      </div>" ++ nl ++
  "    </body>" ++ nl ++ "    </html>" ++ nl ++ "  ".

Definition renderHtml (payload : Payload) : string :=
  let sanitizedName := sanitizeHtml (name payload) in
  let sanitizedMessage := sanitizeHtml (message payload) in
  let subject_ :=
    Js.ifTruthy (subject payload) sanitizeHtml ("New message from " ++ sanitizedName) in
  html0 ++ subject_ ++ html1 ++ sanitizedName ++ html2 ++ email payload ++ html3 ++
  Js.ifTruthy (subject payload)
    (fun _ => "<p><strong>Subject:</strong> " ++ subject_ ++ "</p>") "" ++
  html4 ++ sanitizedMessage ++ html5 ++ sanitizedName ++ html6.

(** The fixed text of the plain-text template literal. *)
Definition text0 : string := Eval cbv in
  nl ++ "New Contact Form Submission" ++ nl ++ nl ++ "From: ".
Definition text1 : string := " (".
Definition text2 : string := Eval cbv in ")" ++ nl.
Definition text3 : string := Eval cbv in nl ++ nl ++ "Message:" ++ nl.
Definition text4 : string := Eval cbv in
  nl ++ nl ++ "---" ++ nl ++ "Note: You can reply directly to this email to respond to ".
Definition text5 : string := Eval cbv in "." ++ nl ++ "  ".

(** The source binds [subject] to the provided or synthesized subject line
    and never reads it again: the template mentions [payload.subject]
    only. *)
Definition renderText (payload : Payload) : string :=
  let subject_ := Js.orElse (subject payload) ("New message from " ++ name payload) in
  Js.trim
    (text0 ++ name payload ++ text1 ++ email payload ++ text2 ++
     Js.ifTruthy (subject payload) (fun s => "Subject: " ++ s) "" ++
     text3 ++ message payload ++ text4 ++ name payload ++ text5).

(** The argument of [resend.emails.send].  [from] is [undefined] when
    [RESEND_FROM] is unset, [to] when the looked-up member has no [email]. *)
Record EmailMessage := mkEmail {
  from : option string;
  to : option string;
  replyTo : string;
  subjectLine : string;
  html : string;
  text : string
}.

(** The e-mail provider, an external collaborator: whether [new Resend(key)]
    returns or throws, and how [emails.send] ends. *)
Inductive SendResult := SendData | SendError | SendThrows.

Record Resend := mkResend {
  construct : option string -> bool;
  send : EmailMessage -> SendResult
}.

(** What the handler can throw inside its [try]. *)
Inductive Thrown :=
| SyntaxError
| ZodError (issues : list Zod.Issue)
| ResendError.

(** What [console.error] is handed: the exception caught, or the error the
    provider reported. *)
Inductive Logged := Caught (e : Thrown) | ProviderError.

(** What the handler does besides answering. *)
Inductive Event :=
| ConsoleError (label : string) (detail : Logged)
| ConsoleLog (line : string)
| EmailsSend (m : EmailMessage).

(** [NextResponse.json({ ok, error }, { status })]. *)
Record Response := mkResponse { status : Z; ok : bool; error : option string }.

(** Computations of the handler: the events so far, and a value or an
    exception. *)
Definition M (A : Type) : Type := list Event * (A + Thrown).

Definition ret {A} (a : A) : M A := ([], inl a).
Definition throw {A} (e : Thrown) : M A := ([], inr e).
Definition emit (ev : Event) : M unit := ([ev], inl tt).
Definition bind {A B} (m : M A) (k : A -> M B) : M B :=
  match m with
  | (evs, inl a) => let '(evs', r) := k a in ((evs ++ evs')%list, r)
  | (evs, inr e) => (evs, inr e)
  end.
Definition tryCatch {A} (m : M A) (handler : Thrown -> M A) : M A :=
  match m with
  | (evs, inl a) => (evs, inl a)
  | (evs, inr e) => let '(evs', r) := handler e in ((evs ++ evs')%list, r)
  end.

Notation "x <- m ;; k" := (bind m (fun x => k))
  (at level 100, m at next level, right associativity).
Notation "m ;;; k" := (bind m (fun _ => k))
  (at level 100, right associativity).

Definition json200 : Response := mkResponse 200 true None.
Definition jsonError (st : Z) (msg : string) : Response := mkResponse st false (Some msg).

(** The object handed to [resend.emails.send]. *)
Definition emailOptions (env : Env) (staffMember : Staff.Member) (payload : Payload)
  : EmailMessage :=
  mkEmail (RESEND_FROM env) (Staff.emailOf staffMember) (email payload)
    (Js.orElse (subject payload) ("New message from " ++ name payload))
    (renderHtml payload) (renderText payload).

(** [request] is the outcome of [request.json()]: a document, or [None]
    when the body is not JSON and the call throws. *)
Definition POST (env : Env) (STAFF_BY_ID : gmap string Staff.StaffRecord)
    (resend : Resend) (request : option Zod.json) : M Response :=
  tryCatch
    (body <- match request with Some b => ret b | None => throw SyntaxError end ;;
     payload <- match sendSchema body with inl p => ret p | inr issues => throw (ZodError issues) end ;;
     match Staff.get STAFF_BY_ID (staffId payload) with
     | None => ret (jsonError 400 "Invalid staff ID")
     | Some staffMember =>
         (if construct resend (RESEND_API_KEY env) then ret tt else throw ResendError) ;;;
         let m := emailOptions env staffMember payload in
         emit (EmailsSend m) ;;;
         match send resend m with
         | SendThrows => throw ResendError
         | SendError =>
             emit (ConsoleError "Resend error:" ProviderError) ;;;
             ret (jsonError 500 "Failed to send email")
         | SendData =>
             emit (ConsoleLog ("Email sent successfully to staff ID: " ++ staffId payload)) ;;;
             ret json200
         end
     end)
    (fun error =>
       emit (ConsoleError "API error:" (Caught error)) ;;;
       match error with
       | ZodError _ => ret (jsonError 400 "Invalid request data")
       | _ => ret (jsonError 500 "Internal server error")
       end).

(** The answer and the events of a finished request. *)
Definition response (r : M Response) : option Response :=
  match snd r with inl x => Some x | inr _ => None end.
Definition events (r : M Response) : list Event := fst r.
Definition sends (r : M Response) : list EmailMessage :=
  flat_map (fun ev => match ev with EmailsSend m => [m] | _ => [] end) (events r).

End Route.

(** ** The specification's reading, to be compared with the code *)

Module Spec.
Import Route.
Local Open Scope string_scope.

(** [pat] occurs in [s]. *)
Definition occurs (pat s : string) : Prop :=
  exists pre post, s = pre ++ pat ++ post.

(** The entity of each of the five characters; every other character
    stands for itself. *)
Definition entity (c : ascii) : string :=
  if Ascii.eqb c "<" then "&lt;"
  else if Ascii.eqb c ">" then "&gt;"
  else if Ascii.eqb c quote then "&quot;"
  else if Ascii.eqb c "'" then "&#x27;"
  else if Ascii.eqb c "/" then "&#x2F;"
  else String c EmptyString.

(** Every occurrence replaced, in one pass over the text. *)
Fixpoint escapeAll (s : string) : string :=
  match s with
  | EmptyString => EmptyString
  | String c s' => entity c ++ escapeAll s'
  end.

(** None of the five characters. *)
Definition inert (c : ascii) : bool := negb (Zod.oneOf "<>'/" c || Ascii.eqb c quote).

(** A subject that is present and not empty. *)
Definition provided (p : Payload) : option string :=
  match subject p with
  | Some (String c s) => Some (String c s)
  | _ => None
  end.

Definition synthesized (who : string) : string := "New message from " ++ who.

(** The plain-text body, written out. *)
Definition textBody (p : Payload) : string :=
  "New Contact Form Submission" ++ nl ++ nl ++
  "From: " ++ name p ++ " (" ++ email p ++ ")" ++ nl ++
  match provided p with Some s => "Subject: " ++ s | None => "" end ++ nl ++ nl ++
  "Message:" ++ nl ++ message p ++ nl ++ nl ++
  "---" ++ nl ++
  "Note: You can reply directly to this email to respond to " ++ name p ++ ".".

(** The HTML body, written out with the escaped fields. *)
Definition htmlBody (p : Payload) : string :=
  html0 ++
  match provided p with Some s => escapeAll s | None => synthesized (escapeAll (name p)) end ++
  html1 ++ escapeAll (name p) ++ " (" ++ email p ++ html3 ++
  match provided p with
  | Some s => "<p><strong>Subject:</strong> " ++ escapeAll s ++ "</p>"
  | None => ""
  end ++
  html4 ++ escapeAll (message p) ++ html5 ++ escapeAll (name p) ++ html6.

(** The characters an accepted e-mail address is made of. *)
Definition emailChar (c : ascii) : bool := Zod.isAlnum c || Zod.oneOf "_'+-.@" c.

(** The bounds of section 4.3 on a typed submission, upper limits included. *)
Definition withinBounds (p : Payload) : Prop :=
  (8 <= String.length (staffId p) <= 128)%nat /\
  (1 <= String.length (name p) <= 120)%nat /\
  Zod.isEmail (email p) = true /\ (String.length (email p) <= 254)%nat /\
  (forall s, subject p = Some s -> (String.length s <= 200)%nat) /\
  (1 <= String.length (message p) <= 5000)%nat.

(** The members of a document carry exactly the fields of [p]. *)
Definition carries (ms : list (string * Zod.json)) (p : Payload) : Prop :=
  Zod.member "staffId" ms = Some (Zod.JString (staffId p)) /\
  Zod.member "name" ms = Some (Zod.JString (name p)) /\
  Zod.member "email" ms = Some (Zod.JString (email p)) /\
  Zod.member "subject" ms = option_map Zod.JString (subject p) /\
  Zod.member "message" ms = Some (Zod.JString (message p)).

(** The document the form posts for [p]: [JSON.stringify(formData)]. *)
Definition submission (p : Payload) : Zod.json :=
  Zod.JObject
    ([("staffId", Zod.JString (staffId p)); ("name", Zod.JString (name p));
      ("email", Zod.JString (email p))] ++
     match subject p with Some s => [("subject", Zod.JString s)] | None => [] end ++
     [("message", Zod.JString (message p))])%list.

(** The document has no staffId that is a string of 8 to 128 characters:
    whatever it holds under that key, if anything, is something else. *)
Definition malformedStaffId (body : Zod.json) : Prop :=
  forall ms i, body = Zod.JObject ms ->
    Zod.member "staffId" ms = Some (Zod.JString i) ->
    (String.length i < 8 \/ 128 < String.length i)%nat.

Definition rejected (body : Zod.json) : Prop :=
  exists issues, sendSchema body = inr issues.

(** [n] copies of the letter x. *)
Fixpoint filler (n : nat) : string :=
  match n with
  | O => EmptyString
  | S n' => String "x" (filler n')
  end.

(** Lower-case the letters of the name and drop everything else, in one
    pass. *)
Fixpoint lettersOnly (s : string) : string :=
  match s with
  | EmptyString => EmptyString
  | String c s' =>
      if Js.between 65 90 c then String (ascii_of_nat (Js.code c + 32)) (lettersOnly s')
      else if Js.between 97 122 c then String c (lettersOnly s')
      else lettersOnly s'
  end.

Definition isLowerLetter (c : ascii) : bool := Js.between 97 122 c.
Definition isLowerHex (c : ascii) : bool := Js.between 48 57 c || Js.between 97 102 c.

(** The identifier under the fallback key, a function of the normalized
    name and of nothing else. *)
Definition fallbackId (normalized : string) : string :=
  Sha256.hex (firstn 8 (Sha256.hmac (Js.utf8 "default-secret") (Js.utf8 normalized))).

(** A recogniser for the tag [<b>]: the state counts how much of the tag
    has just been read, and 3 is kept once reached. *)
Definition tagStep (q : nat) (c : ascii) : nat :=
  match q with
  | 3 => 3
  | _ =>
      if Ascii.eqb c "<" then 1
      else match q with
           | 1 => if Ascii.eqb c "b" then 2 else 0
           | 2 => if Ascii.eqb c ">" then 3 else 0
           | _ => 0
           end
  end.

Fixpoint tagRun (q : nat) (s : string) : nat :=
  match s with
  | EmptyString => q
  | String c s' => tagRun (tagStep q c) s'
  end.

End Spec.

(** ** Sample data: the staff member of the README and a few submissions *)

Module Sample.
Import Id Route.
Local Open Scope string_scope.

Definition env : Env := mkEnv None (Some "re_123") (Some "noreply@yourdomain.com").

Definition gusId : string := "f90c7debd89d693a".

Definition directory : gmap string Staff.StaffRecord :=
  {[ gusId := Staff.mkStaff "Gus" "gus@yourdomain.com" ]}.

(** A provider whose client can be built and which delivers. *)
Definition resend : Resend := mkResend (fun _ => true) (fun _ => SendData).

Definition bob : Payload := mkPayload gusId "<b>Bob</b>" "bob@example.com" None "Hello".
Definition ann : Payload := mkPayload gusId "Ann" "ann@example.com" None "Hi".
Definition annTitled : Payload := mkPayload gusId "Ann" "ann@example.com" (Some "Hours") "Hi".
Definition annBlank : Payload := mkPayload gusId "Ann" "ann@example.com" (Some "") "Hi".

(** The same submission under an identifier that is too short, and under
    one of the right form that the directory does not hold. *)
Definition annShortId : Payload := mkPayload "f90c" "Ann" "ann@example.com" None "Hi".
Definition annOtherId : Payload := mkPayload "0123456789abcdef" "Ann" "ann@example.com" None "Hi".

Definition post (p : Payload) : M Response :=
  POST env directory resend (Some (Spec.submission p)).

Definition annNoName : Payload := mkPayload gusId "" "ann@example.com" None "Hi".
Definition annBadEmail : Payload := mkPayload gusId "Ann" "not-an-email" None "Hi".
Definition annLong (n : nat) : Payload :=
  mkPayload gusId "Ann" "ann@example.com" None (Spec.filler n).

End Sample.

(** ** src/app/form/[id]/page.tsx *)

Module FormById.

Inductive Rendered := NotFound | Form (staffId : string).

(** [notFound()] throws, so the form is rendered only when the lookup is
    truthy. *)
Definition FormPage (STAFF_BY_ID : gmap string Staff.StaffRecord) (id : string) : Rendered :=
  match Staff.get STAFF_BY_ID id with
  | None => NotFound
  | Some _ => Form id
  end.

End FormById.

(** ** src/app/form/page.tsx *)

Module FormByQuery.

Inductive Rendered := InvalidRequest | Form (staffId : string).

(** [sid] is [searchParams.get('sid')]: a string, or [None] for [null]. *)
Definition FormPage (sid : option string) : Rendered :=
  Js.ifTruthy sid Form InvalidRequest.

End FormByQuery.

(** ** The contact form component (second part of the route source file) *)

Module ContactForm.
Import Route.
Local Open Scope string_scope.

(** [z.infer<typeof formSchema>] has the shape of the server's payload. *)
Definition FormData : Type := Payload.

(** The text of an issue: the one written in the schema, or the library's
    own text for the check (never empty) where the schema gives none. *)
Inductive Message := Custom (text : string) | Default (c : Zod.Check).

Record FormIssue := mkFormIssue {
  key : string;
  issueCode : Zod.IssueCode;
  shown : Message
}.

Definition runRules (rules : list (Zod.Check * option string)) (s : string)
  : list (Zod.IssueCode * Message) :=
  flat_map
    (fun rule : Zod.Check * option string =>
       let (c, m) := rule in
       if Zod.passes c s then []
       else [(Zod.codeOf c, match m with Some t => Custom t | None => Default c end)])
    rules.

Definition under (k : string) (found : list (Zod.IssueCode * Message)) : list FormIssue :=
  map (fun f : Zod.IssueCode * Message => mkFormIssue k (fst f) (snd f)) found.

(** [formSchema.parse(formData)] on the typed state of the component. *)
Definition formSchema (data : FormData) : FormData + list FormIssue :=
  let issues :=
    (under "staffId" (runRules [(Zod.Min 8, None); (Zod.Max 128, None)] (staffId data)) ++
     under "name"
       (runRules [(Zod.Min 1, Some "Name is required");
                  (Zod.Max 120, Some "Name must be less than 120 characters")] (name data)) ++
     under "email"
       (runRules [(Zod.Email, Some "Please enter a valid email");
                  (Zod.Max 254, Some "Email must be less than 254 characters")] (email data)) ++
     match subject data with
     | Some s =>
         under "subject"
           (runRules [(Zod.Max 200, Some "Subject must be less than 200 characters")] s)
     | None => []
     end ++
     under "message"
       (runRules [(Zod.Min 1, Some "Message is required");
                  (Zod.Max 5000, Some "Message must be less than 5000 characters")]
          (message data)))%list in
  match issues with
  | [] => inl data
  | _ => inr issues
  end.

Inductive SubmitStatus := Idle | Success | Error.

(** The five pieces of [useState] of the component. *)
Record State := mkState {
  formData : FormData;
  errors : gmap string Message;
  isSubmitting : bool;
  submitStatus : SubmitStatus;
  submitMessage : string
}.

Definition blank (staffId : string) : FormData := mkPayload staffId "" "" (Some "") "".

Definition initial (staffId : string) : State :=
  mkState (blank staffId) ∅ false Idle "".

(** [keyof FormData]. *)
Inductive Field := StaffId | Name | Email | Subject | Message_.

Definition keyOf (f : Field) : string :=
  match f with
  | StaffId => "staffId"
  | Name => "name"
  | Email => "email"
  | Subject => "subject"
  | Message_ => "message"
  end.

(** [{ ...prev, [field]: value }]. *)
Definition setField (f : Field) (value : string) (d : FormData) : FormData :=
  match f with
  | StaffId => mkPayload value (name d) (email d) (subject d) (message d)
  | Name => mkPayload (staffId d) value (email d) (subject d) (message d)
  | Email => mkPayload (staffId d) (name d) value (subject d) (message d)
  | Subject => mkPayload (staffId d) (name d) (email d) (Some value) (message d)
  | Message_ => mkPayload (staffId d) (name d) (email d) (subject d) value
  end.

Definition truthyMessage (m : option Message) : bool :=
  match m with
  | Some (Custom EmptyString) => false
  | Some _ => true
  | None => false
  end.

(** An entry set to [undefined] reads like a missing one, so clearing is
    removal. *)
Definition handleInputChange (field : Field) (value : string) (st : State) : State :=
  mkState (setField field value (formData st))
    (if truthyMessage (errors st !! keyOf field)
     then delete (keyOf field) (errors st) else errors st)
    (isSubmitting st) (submitStatus st) (submitMessage st).

(** The loop over [error.errors], the issues of the [ZodError]: a later
    issue of a field overwrites an earlier one. *)
Definition fieldErrors (issues : list FormIssue) : gmap string Message :=
  fold_left
    (fun acc err =>
       match key err with
       | EmptyString => acc
       | k => <[k := shown err]> acc
       end)
    issues ∅.

(** How a call ends. *)
Inductive Outcome := Returns (valid : bool) | Throws.

(** [errorsMember] tells whether a [ZodError] has the member [errors] that
    the catch block reads.  Where it has (zod 3), that is the list of
    issues.  Where it has not (zod 4 keeps [issues] only), the read gives
    [undefined], its [forEach] throws, and no field error is set. *)
Definition validateForm (errorsMember : bool) (st : State) : State * Outcome :=
  match formSchema (formData st) with
  | inl _ =>
      (mkState (formData st) ∅ (isSubmitting st) (submitStatus st) (submitMessage st),
       Returns true)
  | inr issues =>
      if errorsMember
      then (mkState (formData st) (fieldErrors issues) (isSubmitting st) (submitStatus st)
              (submitMessage st), Returns false)
      else (st, Throws)
  end.

(** How the [fetch] of the form ends: it throws, or the server's JSON
    answer is read. *)
Inductive FetchResult := NetworkError | Answered (r : Response).

(** The state once [handleSubmit] has run to its end.  [fetch] is given the
    document [JSON.stringify(formData)]; it is not called when the form does
    not validate, be it that [validateForm] returns false or that it
    throws. *)
Definition handleSubmit (errorsMember : bool) (fetch : Zod.json -> FetchResult)
    (staffId : string) (st : State) : State :=
  match validateForm errorsMember st with
  | (st1, Returns true) =>
      match fetch (Spec.submission (formData st1)) with
      | Answered result =>
          if ok result
          then mkState (blank staffId) (errors st1) false Success "Message sent successfully!"
          else mkState (formData st1) (errors st1) false Error
                 (Js.orElse (error result) "Failed to send message. Please try again.")
      | NetworkError =>
          mkState (formData st1) (errors st1) false Error
            "Network error. Please check your connection and try again."
      end
  | (st1, _) => st1
  end.

(** The class the label of [TextArea] gets besides the fixed ones. *)
Definition TextArea_labelClass (value : option string) : string :=
  Js.ifTruthy value
    (fun v => if (0 <? String.length (Js.trim v))%nat then "opacity-0" else "") "".

(** The server behind [/api/send], as the form's [fetch] sees it. *)
Definition server (env : Id.Env) (STAFF_BY_ID : gmap string Staff.StaffRecord)
    (resend : Resend) (body : Zod.json) : FetchResult :=
  match response (POST env STAFF_BY_ID resend (Some body)) with
  | Some r => Answered r
  | None => NetworkError
  end.

End ContactForm.

(** ** Measures used in the further properties *)

Module Measure.
Local Open Scope string_scope.

(** How often [c] occurs in [s]. *)
Fixpoint count (c : ascii) (s : string) : nat :=
  match s with
  | EmptyString => 0
  | String a s' => (if Ascii.eqb a c then 1 else 0) + count c s'
  end.

(** The events of a request other than the sending itself. *)
Definition logged (evs : list Route.Event) : list Route.Event :=
  filter (fun ev => match ev with Route.EmailsSend _ => false | _ => true end) evs.

Definition notLetter (c : ascii) : bool := negb (Zod.isLetter c).

(** The payload with its fields emptied; a provided subject stays a
    provided one. *)
Definition hollow (p : Route.Payload) : Route.Payload :=
  Route.mkPayload "" "" ""
    (match Spec.provided p with Some _ => Some "-" | None => None end) "".

(** The message [m] addressed to [t] instead. *)
Definition withTo (t : option string) (m : Route.EmailMessage) : Route.EmailMessage :=
  Route.mkEmail (Route.from m) t (Route.replyTo m) (Route.subjectLine m)
    (Route.html m) (Route.text m).

(** The issue of the form's schema as the server's schema words it. *)
Definition serverIssue (i : ContactForm.FormIssue) : Zod.Issue :=
  Zod.mkIssue [ContactForm.key i] (ContactForm.issueCode i).

(** The text of the last issue found for the member [k]. *)
Fixpoint lastShown (k : string) (issues : list ContactForm.FormIssue)
  : option ContactForm.Message :=
  match issues with
  | [] => None
  | i :: rest =>
      match lastShown k rest with
      | Some m => Some m
      | None => if String.eqb (ContactForm.key i) k then Some (ContactForm.shown i) else None
      end
  end.

(** The characters HTML markup is written with. *)
Definition markup (c : ascii) : bool := Zod.oneOf "<>/" c || Ascii.eqb c Route.quote.

End Measure.

(** * Proofs *)

Import Id Route Spec.
Local Open Scope string_scope.
#[local] Arguments String.append !s1 s2 : simpl nomatch.

(** ** Strings *)

Lemma append_assoc (a b c : string) : (a ++ b) ++ c = a ++ (b ++ c).
Proof. induction a as [|x a IH]; simpl; [reflexivity | now f_equal]. Qed.

Lemma append_empty_r (a : string) : a ++ "" = a.
Proof. induction a as [|x a IH]; simpl; [reflexivity | now f_equal]. Qed.

Lemma prefix_append (pat s : string) :
  String.prefix pat s = true <-> exists post, s = pat ++ post.
Proof.
  revert s. induction pat as [|c pat IH]; intros s; simpl.
  - split; [intros _; now exists s | intros _; now destruct s].
  - destruct s as [|d s]; simpl.
    + split; [discriminate | intros [post H]; discriminate].
    + destruct (ascii_dec c d) as [->|Hne].
      * rewrite IH. split; intros [post H]; exists post.
        -- now rewrite H.
        -- now inversion H.
      * split; [discriminate | intros [post H]; inversion H; congruence].
Qed.

Lemma includes_occurs (pat s : string) : Js.includes pat s = true <-> occurs pat s.
Proof.
  induction s as [|c s IH].
  - cbn [Js.includes]. rewrite orb_false_r, prefix_append. split.
    + intros [post H]. exists "", post. exact H.
    + intros [pre [post H]]. destruct pre; simpl in H.
      * now exists post.
      * discriminate.
  - cbn [Js.includes]. rewrite orb_true_iff, prefix_append, IH. split.
    + intros [[post H] | [pre [post H]]].
      * exists "", post. exact H.
      * exists (String c pre), post. simpl. now rewrite H.
    + intros [pre [post H]]. destruct pre as [|d pre]; simpl in H.
      * left. now exists post.
      * right. inversion H. now exists pre, post.
Qed.

Lemma not_includes_occurs (pat s : string) : Js.includes pat s = false <-> ~ occurs pat s.
Proof.
  rewrite <- includes_occurs. destruct (Js.includes pat s); split; intros H;
    try reflexivity; try discriminate; try (intros ?; discriminate); now destruct H.
Qed.

Lemma occurs_here (pat post : string) : occurs pat (pat ++ post).
Proof. now exists "", post. Qed.

Lemma occurs_append_r (pat a b : string) : occurs pat b -> occurs pat (a ++ b).
Proof.
  intros (pre & post & ->). exists (a ++ pre), post. now rewrite append_assoc.
Qed.

Lemma occurs_append_l (pat a b : string) : occurs pat a -> occurs pat (a ++ b).
Proof.
  intros (pre & post & ->). exists pre, (post ++ b). now rewrite !append_assoc.
Qed.

Lemma all_append (P : ascii -> bool) (a b : string) :
  Zod.all P (a ++ b) = Zod.all P a && Zod.all P b.
Proof. induction a as [|x a IH]; simpl; [reflexivity | now rewrite IH, andb_assoc]. Qed.

Lemma all_impl (P Q : ascii -> bool) (s : string) :
  (forall c, P c = true -> Q c = true) -> Zod.all P s = true -> Zod.all Q s = true.
Proof.
  intros H. induction s as [|x s IH]; simpl; [reflexivity |].
  rewrite !andb_true_iff. intros [Hx Hs]. split; auto.
Qed.

(** ** sanitizeHtml *)

Lemma replaceAll_append (c : ascii) (r a b : string) :
  Js.replaceAll c r (a ++ b) = Js.replaceAll c r a ++ Js.replaceAll c r b.
Proof.
  induction a as [|x a IH]; simpl; [reflexivity |].
  rewrite IH. symmetry. apply append_assoc.
Qed.

Lemma sanitizeHtml_append (a b : string) :
  sanitizeHtml (a ++ b) = sanitizeHtml a ++ sanitizeHtml b.
Proof. unfold sanitizeHtml. now rewrite !replaceAll_append. Qed.

Lemma sanitizeHtml_char (c : ascii) : sanitizeHtml (String c "") = entity c.
Proof.
  destruct c as [[] [] [] [] [] [] [] []]; reflexivity.
Qed.

Lemma sanitizeHtml_escapeAll (s : string) : sanitizeHtml s = escapeAll s.
Proof.
  induction s as [|c s IH]; [reflexivity |].
  change (String c s) with (String c "" ++ s).
  rewrite sanitizeHtml_append, sanitizeHtml_char, IH. reflexivity.
Qed.

Lemma entity_inert (c : ascii) : Zod.all inert (entity c) = true.
Proof. destruct c as [[] [] [] [] [] [] [] []]; reflexivity. Qed.

Lemma escapeAll_inert (s : string) : Zod.all inert (escapeAll s) = true.
Proof.
  induction s as [|c s IH]; [reflexivity |].
  simpl. now rewrite all_append, entity_inert, IH.
Qed.

(** ** trim and the two bodies *)

Lemma trimEnd_append_nonempty (a b : string) :
  Js.trimEnd b <> "" -> Js.trimEnd (a ++ b) <> "".
Proof.
  intros Hb. induction a as [|c a IH]; simpl; [exact Hb |].
  destruct (Js.trimEnd (a ++ b)); [contradiction | discriminate].
Qed.

Lemma trimEnd_append (a b : string) :
  Js.trimEnd b <> "" -> Js.trimEnd (a ++ b) = a ++ Js.trimEnd b.
Proof.
  intros Hb. induction a as [|c a IH]; simpl; [reflexivity |].
  pose proof (trimEnd_append_nonempty a b Hb) as Hne.
  rewrite <- IH. destruct (Js.trimEnd (a ++ b)); [contradiction | reflexivity].
Qed.

Lemma renderText_textBody (p : Payload) : renderText p = textBody p.
Proof.
  unfold renderText, textBody, Js.trim.
  assert (Hsub : Js.ifTruthy (subject p) (fun s => "Subject: " ++ s) ""
                 = match provided p with Some s => "Subject: " ++ s | None => "" end).
  { unfold provided. destruct (subject p) as [[|c s]|]; reflexivity. }
  rewrite Hsub. clear Hsub.
  set (line := match provided p with Some s => "Subject: " ++ s | None => "" end).
  change (Js.trimStart (text0 ++ ?x)) with ("New Contact Form Submission" ++ nl ++ nl ++ "From: " ++ x).
  assert (Hend : Js.trimEnd text5 <> "") by (vm_compute; discriminate).
  repeat (rewrite trimEnd_append; [| repeat apply trimEnd_append_nonempty; exact Hend]).
  reflexivity.
Qed.

Lemma renderHtml_htmlBody (p : Payload) : renderHtml p = htmlBody p.
Proof.
  unfold renderHtml, htmlBody, provided, synthesized.
  destruct (subject p) as [[|c s]|]; cbn [Js.ifTruthy];
    rewrite !sanitizeHtml_escapeAll; reflexivity.
Qed.

(** ** The validator *)

Lemma runChecks_min_max (lo hi : nat) (s : string) :
  Zod.runChecks [Zod.Min lo; Zod.Max hi] s = [] <->
  (lo <= String.length s <= hi)%nat.
Proof.
  unfold Zod.runChecks. simpl.
  destruct (Nat.leb_spec lo (String.length s)) as [L1|L1],
           (Nat.leb_spec (String.length s) hi) as [L2|L2];
    simpl; split; intros G; try discriminate; try reflexivity; lia.
Qed.

Lemma runChecks_max (hi : nat) (s : string) :
  Zod.runChecks [Zod.Max hi] s = [] <-> (String.length s <= hi)%nat.
Proof.
  unfold Zod.runChecks. simpl.
  destruct (Nat.leb_spec (String.length s) hi) as [L|L];
    simpl; split; intros G; try discriminate; try reflexivity; lia.
Qed.

Lemma runChecks_email_max (hi : nat) (s : string) :
  Zod.runChecks [Zod.Email; Zod.Max hi] s = [] <->
  Zod.isEmail s = true /\ (String.length s <= hi)%nat.
Proof.
  unfold Zod.runChecks. simpl.
  destruct (Zod.isEmail s), (Nat.leb_spec (String.length s) hi) as [L|L];
    simpl; split; intros G; try discriminate; try reflexivity;
    try (split; [reflexivity | lia]); destruct G; try discriminate; lia.
Qed.

Lemma parseString_accepts (optional : bool) (checks : list Zod.Check)
    (v : option Zod.json) (o : option string) :
  Zod.parseString optional checks v = (o, []) <->
  (exists s, v = Some (Zod.JString s) /\ o = Some s /\ Zod.runChecks checks s = []) \/
  (optional = true /\ v = None /\ o = None).
Proof.
  unfold Zod.parseString. split.
  - destruct v as [[]|]; intros H; inversion H; subst; try discriminate.
    + left. eauto.
    + right. destruct optional; [auto | discriminate].
  - intros [[s (-> & -> & ->)] | (-> & -> & ->)]; reflexivity.
Qed.

Lemma at_empty (key : string) (codes : list Zod.IssueCode) :
  Zod.at_ key codes = [] -> codes = [].
Proof. destruct codes; [reflexivity | discriminate]. Qed.

Lemma sendSchema_inl (body : Zod.json) (p : Payload) :
  sendSchema body = inl p <->
  exists ms, body = Zod.JObject ms /\ carries ms p /\ withinBounds p.
Proof.
  split.
  - destruct body as [| | | | |ms]; try discriminate. unfold sendSchema.
    destruct (Zod.parseString false _ (Zod.member "staffId" ms)) as [v1 i1] eqn:E1.
    destruct (Zod.parseString false _ (Zod.member "name" ms)) as [v2 i2] eqn:E2.
    destruct (Zod.parseString false _ (Zod.member "email" ms)) as [v3 i3] eqn:E3.
    destruct (Zod.parseString true _ (Zod.member "subject" ms)) as [v4 i4] eqn:E4.
    destruct (Zod.parseString false _ (Zod.member "message" ms)) as [v5 i5] eqn:E5.
    destruct v1 as [a|], v2 as [b|], v3 as [c|], v5 as [d|];
      try (destruct (_ ++ _)%list; discriminate).
    destruct ((Zod.at_ "staffId" i1 ++ _)%list) eqn:E; [| discriminate].
    intros H. inversion H; subst p; clear H.
    apply app_eq_nil in E as [F1 E]. apply app_eq_nil in E as [F2 E].
    apply app_eq_nil in E as [F3 E]. apply app_eq_nil in E as [F4 F5].
    apply at_empty in F1, F2, F3, F4, F5. subst.
    apply parseString_accepts in E1 as [(s & M1 & S1 & C1)|(? & _)]; [| discriminate].
    apply parseString_accepts in E2 as [(s2 & M2 & S2 & C2)|(? & _)]; [| discriminate].
    apply parseString_accepts in E3 as [(s3 & M3 & S3 & C3)|(? & _)]; [| discriminate].
    apply parseString_accepts in E5 as [(s5 & M5 & S5 & C5)|(? & _)]; [| discriminate].
    inversion S1; inversion S2; inversion S3; inversion S5; subst.
    apply runChecks_min_max in C1, C2, C5. apply runChecks_email_max in C3 as [C3 C3'].
    exists ms. split; [reflexivity |]. unfold carries, withinBounds; simpl.
    apply parseString_accepts in E4 as [(s4 & M4 & -> & C4)|(_ & M4 & ->)].
    + apply runChecks_max in C4. rewrite M4. repeat split; auto; try lia.
      intros ? [= <-]. exact C4.
    + rewrite M4. repeat split; auto; try lia. discriminate.
  - intros (ms & -> & (M1 & M2 & M3 & M4 & M5) & (B1 & B2 & B3 & B3' & B4 & B5)).
    unfold sendSchema. rewrite M1, M2, M3, M4, M5.
    destruct p as [i n e su m]; cbn [staffId name email subject message] in *.
    apply runChecks_min_max in B1, B2, B5.
    destruct su as [s|]; cbn [Zod.parseString option_map];
      rewrite B1, B2, B5, (proj2 (runChecks_email_max 254 e) (conj B3 B3')).
    + rewrite (proj2 (runChecks_max 200 s) (B4 s eq_refl)). reflexivity.
    + reflexivity.
Qed.

Lemma sendSchema_total (body : Zod.json) :
  (exists p, sendSchema body = inl p) \/ rejected body.
Proof. unfold rejected. destruct (sendSchema body); eauto. Qed.

Lemma carries_submission (p : Payload) :
  exists ms, submission p = Zod.JObject ms /\ carries ms p.
Proof.
  eexists. split; [reflexivity |]. unfold carries.
  destruct p as [i n e [s|] m]; simpl; repeat split; reflexivity.
Qed.

Lemma carries_unique (ms : list (string * Zod.json)) (p q : Payload) :
  carries ms p -> carries ms q -> p = q.
Proof.
  intros (P1 & P2 & P3 & P4 & P5) (Q1 & Q2 & Q3 & Q4 & Q5).
  destruct p as [i n e s m], q as [i' n' e' s' m']; simpl in *.
  rewrite P1 in Q1; rewrite P2 in Q2; rewrite P3 in Q3; rewrite P4 in Q4; rewrite P5 in Q5.
  inversion Q1; inversion Q2; inversion Q3; inversion Q5; subst.
  destruct s, s'; simpl in Q4; inversion Q4; reflexivity.
Qed.

Lemma sendSchema_submission (p : Payload) :
  (withinBounds p -> sendSchema (submission p) = inl p) /\
  (~ withinBounds p -> rejected (submission p)).
Proof.
  destruct (carries_submission p) as (ms & Hs & Hc). split.
  - intros Hb. apply sendSchema_inl. eauto.
  - intros Hn. destruct (sendSchema_total (submission p)) as [[q Hq]|]; [| assumption].
    exfalso. apply Hn. apply sendSchema_inl in Hq as (ms' & E & Hc' & Hb).
    rewrite Hs in E. inversion E; subst ms'.
    now rewrite (carries_unique ms p q Hc Hc').
Qed.

(** A member that is a string the schema refuses makes the document
    rejected, whatever the other members are. *)
Lemma rejected_member (ms : list (string * Zod.json))
    (P : Payload -> Prop) :
  (forall p, carries ms p -> withinBounds p -> P p) ->
  (forall p, carries ms p -> ~ P p) ->
  rejected (Zod.JObject ms).
Proof.
  intros Hyes Hno. destruct (sendSchema_total (Zod.JObject ms)) as [[p Hp]|]; [| assumption].
  apply sendSchema_inl in Hp as (ms' & E & Hc & Hb). inversion E; subst ms'.
  exfalso. exact (Hno p Hc (Hyes p Hc Hb)).
Qed.

(** ** Characters of an accepted e-mail address *)

Lemma splitOn_nonempty (sep : ascii) (s : string) : Zod.splitOn sep s <> [].
Proof.
  induction s as [|c s IH]; simpl; [discriminate |].
  destruct (Zod.splitOn sep s); [contradiction |].
  destruct (Ascii.eqb c sep); discriminate.
Qed.

Lemma all_splitOn (P : ascii -> bool) (sep : ascii) (s : string) :
  P sep = true ->
  (forall part, In part (Zod.splitOn sep s) -> Zod.all P part = true) ->
  Zod.all P s = true.
Proof.
  intros Hsep. induction s as [|c s IH]; [reflexivity |].
  simpl. pose proof (splitOn_nonempty sep s) as Hne.
  destruct (Zod.splitOn sep s) as [|part parts]; [contradiction |].
  destruct (Ascii.eqb_spec c sep) as [->|Hc]; intros Hparts.
  - rewrite Hsep. simpl. apply IH. intros q Hq. apply Hparts. now right.
  - assert (Hhead : Zod.all P (String c part) = true) by (apply Hparts; now left).
    simpl in Hhead. apply andb_true_iff in Hhead as [Hc' Hpart].
    rewrite Hc'. simpl. apply IH. intros q [<-|Hq]; [exact Hpart |].
    apply Hparts. now right.
Qed.

Lemma label_emailChar (c : ascii) :
  Zod.isAlnum c || Zod.oneOf "-" c = true -> emailChar c = true.
Proof. destruct c as [[] [] [] [] [] [] [] []]; vm_compute; auto. Qed.

Lemma letter_emailChar (c : ascii) : Zod.isLetter c = true -> emailChar c = true.
Proof. destruct c as [[] [] [] [] [] [] [] []]; vm_compute; auto. Qed.

Lemma local_emailChar (c : ascii) :
  Zod.isAlnum c || Zod.oneOf "_'+-." c = true -> emailChar c = true.
Proof. destruct c as [[] [] [] [] [] [] [] []]; vm_compute; auto. Qed.

Lemma isLabel_chars (s : string) : Zod.isLabel s = true -> Zod.all emailChar s = true.
Proof.
  destruct s as [|c s]; [discriminate |]. unfold Zod.isLabel.
  rewrite andb_true_iff. intros [Hc Hs]. simpl. rewrite andb_true_iff. split.
  - apply label_emailChar. now rewrite Hc.
  - revert Hs. apply all_impl. exact label_emailChar.
Qed.

Lemma isTld_chars (s : string) : Zod.isTld s = true -> Zod.all emailChar s = true.
Proof.
  unfold Zod.isTld. rewrite andb_true_iff. intros [Hs _].
  revert Hs. apply all_impl. exact letter_emailChar.
Qed.

Lemma isDomain_chars (parts : list string) :
  Zod.isDomain parts = true ->
  forall part, In part parts -> Zod.all emailChar part = true.
Proof.
  induction parts as [|l rest IH]; [discriminate |].
  destruct rest as [|a [|b rest]].
  - discriminate.
  - cbn [Zod.isDomain]. rewrite andb_true_iff. intros [Hl Ha] part [<-|[<-|[]]].
    + now apply isLabel_chars.
    + now apply isTld_chars.
  - cbn [Zod.isDomain]. rewrite andb_true_iff. intros [Hl Hrest] part [<-|Hin].
    + now apply isLabel_chars.
    + now apply IH.
Qed.

Lemma isEmail_chars (s : string) : Zod.isEmail s = true -> Zod.all emailChar s = true.
Proof.
  unfold Zod.isEmail. rewrite andb_true_iff. intros [_ H].
  destruct (Zod.splitOn "@" s) as [|local [|domain [|]]] eqn:E; try discriminate.
  apply andb_true_iff in H as [Hl Hd].
  apply (all_splitOn emailChar "@" s); [reflexivity |]. rewrite E.
  intros part [<-|[<-|[]]].
  - unfold Zod.isLocal in Hl. apply andb_true_iff in Hl as [Hl _].
    revert Hl. apply all_impl. exact local_emailChar.
  - apply (all_splitOn emailChar "." domain); [reflexivity |].
    now apply isDomain_chars.
Qed.

(** ** The tag recogniser *)

Lemma tagRun_append (q : nat) (a b : string) : tagRun q (a ++ b) = tagRun (tagRun q a) b.
Proof. revert q. induction a as [|c a IH]; intros q; simpl; [reflexivity | apply IH]. Qed.

Lemma tagRun_stuck (s : string) : tagRun 3 s = 3.
Proof. induction s as [|c s IH]; simpl; [reflexivity | exact IH]. Qed.

Lemma tagRun_tag (q : nat) : tagRun q "<b>" = 3.
Proof. destruct q as [|[|[|[|q]]]]; reflexivity. Qed.

Lemma tagRun_occurs (s : string) : occurs "<b>" s -> tagRun 0 s = 3.
Proof.
  intros (pre & post & ->).
  now rewrite tagRun_append, tagRun_append, tagRun_tag, tagRun_stuck.
Qed.

Lemma tagRun_idle (P : ascii -> bool) (s : string) :
  (forall c, P c = true -> c <> "<"%char) ->
  Zod.all P s = true -> tagRun 0 s = 0.
Proof.
  intros HP. induction s as [|c s IH]; [reflexivity |].
  simpl. rewrite andb_true_iff. intros [Hc Hs].
  destruct (Ascii.eqb_spec c "<") as [->|_]; [now apply HP in Hc | now apply IH].
Qed.

Lemma inert_not_lt (c : ascii) : inert c = true -> c <> "<"%char.
Proof. intros H ->. discriminate. Qed.

Lemma emailChar_not_lt (c : ascii) : emailChar c = true -> c <> "<"%char.
Proof. intros H ->. discriminate. Qed.

Lemma tagRun_escapeAll (s : string) : tagRun 0 (escapeAll s) = 0.
Proof. apply (tagRun_idle inert); [exact inert_not_lt | apply escapeAll_inert]. Qed.

Ltac tag_idle :=
  lazymatch goal with
  | |- tagRun 0 (escapeAll _) = 0 => apply tagRun_escapeAll
  | |- tagRun 0 (?a ++ ?b) = 0 =>
      rewrite (tagRun_append 0 a b);
      let H := fresh in
      assert (H : tagRun 0 a = 0) by tag_idle; rewrite H; clear H; tag_idle
  | _ => first [assumption | vm_compute; reflexivity]
  end.

Lemma tagRun_htmlBody (p : Payload) :
  Zod.isEmail (email p) = true -> tagRun 0 (htmlBody p) = 0.
Proof.
  intros He. apply isEmail_chars in He.
  pose proof (tagRun_idle emailChar _ emailChar_not_lt He) as Hemail.
  unfold htmlBody, synthesized.
  destruct (provided p) as [s|]; tag_idle.
Qed.

(** ** The request handler *)

Lemma POST_invalid (env : Env) (dir : gmap string Staff.StaffRecord) (resend : Resend)
    (body : Zod.json) (issues : list Zod.Issue) :
  sendSchema body = inr issues ->
  POST env dir resend (Some body) =
  ([ConsoleError "API error:" (Caught (ZodError issues))],
   inl (jsonError 400 "Invalid request data")).
Proof. intros H. unfold POST. cbn. rewrite H. reflexivity. Qed.

Lemma POST_unknown (env : Env) (dir : gmap string Staff.StaffRecord) (resend : Resend)
    (body : Zod.json) (p : Payload) :
  sendSchema body = inl p -> Staff.get dir (staffId p) = None ->
  POST env dir resend (Some body) = ([], inl (jsonError 400 "Invalid staff ID")).
Proof. intros H G. unfold POST. cbn. rewrite H. cbn. rewrite G. reflexivity. Qed.

Lemma POST_sends (env : Env) (dir : gmap string Staff.StaffRecord) (resend : Resend)
    (body : Zod.json) (p : Payload) (m : Staff.Member) :
  sendSchema body = inl p -> Staff.get dir (staffId p) = Some m ->
  construct resend (RESEND_API_KEY env) = true ->
  sends (POST env dir resend (Some body)) = [emailOptions env m p].
Proof.
  intros H G C. unfold sends, events, POST. cbn. rewrite H. cbn. rewrite G, C. cbn.
  destruct (send resend (emailOptions env m p)); reflexivity.
Qed.

Lemma POST_answers (env : Env) (dir : gmap string Staff.StaffRecord) (resend : Resend)
    (request : option Zod.json) :
  exists r, response (POST env dir resend request) = Some r.
Proof.
  unfold response, POST. destruct request as [body|]; cbn; [| eauto].
  destruct (sendSchema body) as [p|issues]; cbn; [| eauto].
  destruct (Staff.get dir (staffId p)) as [m|]; cbn; [| eauto].
  destruct (construct resend (RESEND_API_KEY env)); cbn; [| eauto].
  destruct (send resend (emailOptions env m p)); cbn; eauto.
Qed.

(** ** Known values *)

(** FIPS 180-4: the first and last round constants and the initial hash. *)
Example sha256_constants :
  hd 0%Z Sha256.K = 0x428a2f98%Z /\ last Sha256.K 0%Z = 0xc67178f2%Z /\
  List.length Sha256.K = 64 /\
  Sha256.sa Sha256.H0 = 0x6a09e667%Z /\ Sha256.sh Sha256.H0 = 0x5be0cd19%Z.
Proof. repeat split; reflexivity. Qed.

(** FIPS 180-4, the one-block message abc, and the empty message. *)
Example sha256_abc :
  Sha256.hex (Sha256.sha256 (Js.utf8 "abc")) =
    "ba7816bf8f01cfea414140de5dae2223b00361a396177a9cb410ff61f20015ad" /\
  Sha256.hex (Sha256.sha256 []) =
    "e3b0c44298fc1c149afbf4c8996fb92427ae41e4649b934ca495991b7852b855".
Proof. split; vm_compute; reflexivity. Qed.

(** RFC 4231, test cases 2 (a short key) and 6 (a key longer than a block). *)
Example hmac_rfc4231 :
  Sha256.hex (Sha256.hmac (Js.utf8 "Jefe") (Js.utf8 "what do ya want for nothing?")) =
    "5bdcc146bf60754e6a042426089575c75a003f089d2739839dec58b964ec3843" /\
  Sha256.hex (Sha256.hmac (repeat 170%Z 131)
                (Js.utf8 "Test Using Larger Than Block-Size Key - Hash Key First")) =
    "60e431591ee0b67f0d8a26aacbf5b77f8e0bc6213728c5140546040f0ee37f54".
Proof. split; vm_compute; reflexivity. Qed.

(** The README's link for Gus, [/form/f90c7debd89d693a], is the identifier
    under the fallback secret. *)
Example readme_identifier : makeHashedId Sample.env "Gus" = Sample.gusId.
Proof. vm_compute. reflexivity. Qed.

Example email_pattern :
  map Zod.isEmail ["ann@example.com"; "o'neil@x-y.z9.org"; "not-an-email"; "a@b"; "a@b.c";
                   ".a@b.cd"; "a..b@c.de"; "a.@b.cd"; "a@@b.cd"; "a@-b.cd"; "a@b.c1"] =
  [true; true; false; false; false; false; false; false; false; false; false].
Proof. vm_compute. reflexivity. Qed.

Example white_space_runs :
  Js.replaceWhiteSpaceRuns "_" (" a  b" ++ nl ++ " c ") = "_a_b_c_" /\
  Js.trim (nl ++ "  a b  ") = "a b".
Proof. split; reflexivity. Qed.

(** A staffId that names a member of [Object.prototype] is not in the
    directory and yet resolves: the handler goes on to send, to nobody. *)
Example inherited_member_resolves :
  Sample.directory !! "hasOwnProperty" = None /\
  map to (sends (Sample.post
    (mkPayload "hasOwnProperty" "Ann" "ann@example.com" None "Hi"))) = [None].
Proof. split; vm_compute; reflexivity. Qed.

(** ** trim takes off exactly the white space at both ends *)

Lemma trimStart_spec (s : string) :
  exists l, s = l ++ Js.trimStart s /\ Zod.all Js.isWhiteSpace l = true /\
    match Js.trimStart s with
    | String c _ => Js.isWhiteSpace c = false
    | EmptyString => True
    end.
Proof.
  induction s as [|c s (l & E & Hl & Hhead)].
  - exists "". repeat split.
  - cbn [Js.trimStart]. destruct (Js.isWhiteSpace c) eqn:Hc.
    + exists (String c l). cbn [append Zod.all]. rewrite Hc, Hl, <- E. repeat split.
      exact Hhead.
    + exists "". repeat split. exact Hc.
Qed.

Lemma trimEnd_spec (s : string) :
  exists r, s = Js.trimEnd s ++ r /\ Zod.all Js.isWhiteSpace r = true /\
    match Zod.lastChar (Js.trimEnd s) with
    | Some c => Js.isWhiteSpace c = false
    | None => True
    end.
Proof.
  induction s as [|c s (r & E & Hr & Hlast)].
  - exists "". repeat split.
  - cbn [Js.trimEnd]. destruct (Js.trimEnd s) as [|d t] eqn:Et.
    + cbn [append] in E. subst r. destruct (Js.isWhiteSpace c) eqn:Hc.
      * exists (String c s). cbn [append Zod.all]. rewrite Hc, Hr. repeat split.
      * exists s. repeat split; [exact Hr | exact Hc].
    + exists r. cbn [append] in *. rewrite <- E. repeat split; [exact Hr | exact Hlast].
Qed.

Lemma trim_spec (s : string) :
  exists l r, s = l ++ Js.trim s ++ r /\
    Zod.all Js.isWhiteSpace l = true /\ Zod.all Js.isWhiteSpace r = true /\
    match Zod.lastChar (Js.trim s) with
    | Some c => Js.isWhiteSpace c = false
    | None => True
    end.
Proof.
  destruct (trimStart_spec s) as (l & El & Hl & _).
  destruct (trimEnd_spec (Js.trimStart s)) as (r & Er & Hr & Hlast).
  exists l, r. unfold Js.trim. rewrite <- Er. auto.
Qed.

(** * The claims *)

(** ** C4: escaping in the HTML body, raw text in the plain body *)

(** C4.  [sanitizeHtml], five replacements one after the other, is the
    single pass that puts the entity of each of [<], [>], the double quote,
    the apostrophe and [/] in its place and keeps every other character; its
    result holds none of the five.  The HTML body embeds the name, the
    subject and the message in that escaped form, and the plain-text body
    embeds the same strings as they were sent. *)
Theorem escaping_in_html_not_in_text :
  (forall s, sanitizeHtml s = escapeAll s) /\
  (forall s, Zod.all inert (sanitizeHtml s) = true) /\
  (forall p, renderHtml p = htmlBody p) /\
  (forall p, renderText p = textBody p).
Proof.
  split; [exact sanitizeHtml_escapeAll |].
  split; [intros s; rewrite sanitizeHtml_escapeAll; apply escapeAll_inert |].
  split; [exact renderHtml_htmlBody | exact renderText_textBody].
Qed.

(** ** C1: the submission of <b>Bob</b> *)

(** C1, as stated, fails: the slash of the closing tag is escaped too, so
    the HTML body of this accepted submission does not hold
    [&lt;b&gt;Bob&lt;/b&gt;]. *)
Lemma bob_html_has_no_bare_slash :
  sendSchema (submission Sample.bob) = inl Sample.bob /\
  name Sample.bob = "<b>Bob</b>" /\
  ~ (occurs "&lt;b&gt;Bob&lt;/b&gt;" (renderHtml Sample.bob) /\
     ~ occurs "<b>" (renderHtml Sample.bob) /\
     occurs "<b>Bob</b>" (renderText Sample.bob)).
Proof.
  split; [vm_compute; reflexivity |]. split; [reflexivity |].
  intros [H _]. apply includes_occurs in H. vm_compute in H. discriminate.
Qed.

(** C1, amended.  For every accepted submission whose name is
    [<b>Bob</b>], the HTML body holds [&lt;b&gt;Bob&lt;&#x2F;b&gt;] and
    nowhere the tag [<b>], and the plain-text body holds [<b>Bob</b>]
    itself. *)
Theorem bob_is_escaped_in_html_only (body : Zod.json) (p : Payload) :
  sendSchema body = inl p ->
  name p = "<b>Bob</b>" ->
  occurs "&lt;b&gt;Bob&lt;&#x2F;b&gt;" (renderHtml p) /\
  ~ occurs "<b>" (renderHtml p) /\
  occurs "<b>Bob</b>" (renderText p).
Proof.
  intros Hp Hn. apply sendSchema_inl in Hp as (ms & _ & _ & Hb).
  destruct Hb as (_ & _ & He & _).
  rewrite renderHtml_htmlBody, renderText_textBody. repeat split.
  - unfold htmlBody. rewrite Hn.
    change (escapeAll "<b>Bob</b>") with "&lt;b&gt;Bob&lt;&#x2F;b&gt;".
    do 3 apply occurs_append_r. apply occurs_here.
  - intros H. apply tagRun_occurs in H. rewrite tagRun_htmlBody in H by exact He.
    discriminate.
  - unfold textBody. rewrite Hn.
    do 4 apply occurs_append_r. apply occurs_here.
Qed.

Lemma bob_is_escaped_in_html_only_witness :
  occurs "&lt;b&gt;Bob&lt;&#x2F;b&gt;" (renderHtml Sample.bob) /\
  ~ occurs "<b>" (renderHtml Sample.bob) /\
  occurs "<b>Bob</b>" (renderText Sample.bob).
Proof.
  apply (bob_is_escaped_in_html_only (submission Sample.bob) Sample.bob).
  - vm_compute. reflexivity.
  - reflexivity.
Defined.

(** ** C3: the bounds of the validator *)

Lemma length_filler (n : nat) : String.length (filler n) = n.
Proof. induction n as [|n IH]; simpl; [reflexivity | now rewrite IH]. Qed.

(** C3.  A submission is accepted exactly when every field is within its
    bounds, each upper limit included: staffId 8..128, name 1..120, e-mail
    a valid address of at most 254, subject (when there is one) at most 200,
    message 1..5000.  A message of 5000 characters therefore passes where
    the rest is in order; and a document is rejected, whatever else it
    holds, when its message has 5001 characters, its name is empty, or its
    e-mail is [not-an-email]. *)
Theorem validator_bounds_are_inclusive :
  (forall p, sendSchema (submission p) = inl p <-> withinBounds p) /\
  (forall p, ~ withinBounds p -> rejected (submission p)) /\
  (forall p, withinBounds p -> forall m, String.length m = 5000 ->
     let q := mkPayload (staffId p) (name p) (email p) (subject p) m in
     sendSchema (submission q) = inl q) /\
  (forall ms m, Zod.member "message" ms = Some (Zod.JString m) ->
     String.length m = S 5000 -> rejected (Zod.JObject ms)) /\
  (forall ms, Zod.member "name" ms = Some (Zod.JString "") ->
     rejected (Zod.JObject ms)) /\
  (forall ms, Zod.member "email" ms = Some (Zod.JString "not-an-email") ->
     rejected (Zod.JObject ms)).
Proof.
  split; [| split; [| split; [| split; [| split]]]].
  - intros p. split.
    + intros H. apply sendSchema_inl in H as (ms & E & Hc & Hb). exact Hb.
    + apply sendSchema_submission.
  - intros p. apply sendSchema_submission.
  - intros p (B1 & B2 & B3 & B3' & B4 & B5) m Hm q.
    apply sendSchema_submission. unfold withinBounds, q; simpl.
    repeat split; try assumption; try lia; rewrite Hm; lia.
  - intros ms m Hmem Hlen.
    apply (rejected_member ms (fun p => String.length (message p) <= 5000)%nat).
    + intros p _ (_ & _ & _ & _ & _ & B5). lia.
    + intros p (_ & _ & _ & _ & C5). rewrite Hmem in C5. injection C5 as ->. lia.
  - intros ms Hmem.
    apply (rejected_member ms (fun p => 1 <= String.length (name p))%nat).
    + intros p _ (_ & B2 & _). lia.
    + intros p (_ & C2 & _). rewrite Hmem in C2. injection C2 as <-. simpl. lia.
  - intros ms Hmem.
    apply (rejected_member ms (fun p => Zod.isEmail (email p) = true)).
    + intros p _ (_ & _ & B3 & _). exact B3.
    + intros p (_ & _ & C3 & _). rewrite Hmem in C3. injection C3 as <-. discriminate.
Qed.

Lemma validator_bounds_are_inclusive_witness :
  sendSchema (submission (Sample.annLong 5000)) = inl (Sample.annLong 5000) /\
  rejected (submission (Sample.annLong (S 5000))) /\
  rejected (submission Sample.annNoName) /\
  rejected (submission Sample.annBadEmail).
Proof.
  destruct validator_bounds_are_inclusive as (_ & _ & H5000 & H5001 & Hname & Hemail).
  split; [| split; [| split]].
  - apply (H5000 Sample.ann).
    + unfold withinBounds. simpl. repeat split; try lia; discriminate.
    + apply length_filler.
  - apply (H5001 _ (filler (S 5000))); [reflexivity | apply length_filler].
  - apply Hname. reflexivity.
  - apply Hemail. reflexivity.
Defined.

(** ** C5 and C10: the subject line *)

Lemma title_occurs (t rest : string) :
  occurs ("<title>" ++ t ++ "</title>") (html0 ++ t ++ html1 ++ rest).
Proof.
  assert (E0 : exists head, html0 = head ++ "<title>").
  { exists (nl ++ "    <!DOCTYPE html>" ++ nl ++ "    <html>" ++ nl ++ "    <head>" ++ nl ++
            "      <meta charset=" ++ dq ++ "utf-8" ++ dq ++ ">" ++ nl ++ "      ").
    reflexivity. }
  assert (E1 : exists tail, html1 = "</title>" ++ tail) by (eexists; reflexivity).
  destruct E0 as [head ->], E1 as [tail ->].
  exists head, (tail ++ rest). rewrite !append_assoc. reflexivity.
Qed.

Lemma orElse_provided (p : Payload) (d : string) :
  Js.orElse (subject p) d = match provided p with Some s => s | None => d end.
Proof. unfold provided. destruct (subject p) as [[|c s]|]; reflexivity. Qed.

(** C5, as stated, fails: for an accepted submission without a subject the
    synthesized line is the subject header, but the plain-text body does
    not hold it. *)
Lemma ann_text_has_no_synthesized_subject :
  sendSchema (submission Sample.ann) = inl Sample.ann /\
  subject Sample.ann = None /\
  ~ occurs (synthesized (name Sample.ann)) (renderText Sample.ann).
Proof.
  split; [vm_compute; reflexivity |]. split; [reflexivity |].
  apply not_includes_occurs. vm_compute. reflexivity.
Qed.

(** C5, amended.  In the message the handler sends, a subject that is
    provided (present and not empty) is the subject header, escaped it is
    the HTML title and the [Subject:] paragraph of the HTML body, and raw it
    is the [Subject:] line of the plain-text body.  Otherwise the header is [New message from] followed by the raw
    name, the HTML title is the same line with the escaped name, and the
    plain-text body has no subject line: it is the fixed text around the
    raw name, e-mail and message. *)
Theorem subject_line_of_sent_message (env : Env) (dir : gmap string Staff.StaffRecord)
    (resend : Resend) (body : Zod.json) (p : Payload) (m : Staff.Member) :
  sendSchema body = inl p ->
  Staff.get dir (staffId p) = Some m ->
  construct resend (RESEND_API_KEY env) = true ->
  exists msg, sends (POST env dir resend (Some body)) = [msg] /\
    match provided p with
    | Some s =>
        subjectLine msg = s /\
        occurs ("<title>" ++ escapeAll s ++ "</title>") (html msg) /\
        occurs ("<p><strong>Subject:</strong> " ++ escapeAll s ++ "</p>") (html msg) /\
        occurs (nl ++ "Subject: " ++ s ++ nl) (text msg)
    | None =>
        subjectLine msg = "New message from " ++ name p /\
        occurs ("<title>New message from " ++ escapeAll (name p) ++ "</title>") (html msg) /\
        text msg =
          "New Contact Form Submission" ++ nl ++ nl ++
          "From: " ++ name p ++ " (" ++ email p ++ ")" ++ nl ++ nl ++ nl ++
          "Message:" ++ nl ++ message p ++ nl ++ nl ++ "---" ++ nl ++
          "Note: You can reply directly to this email to respond to " ++ name p ++ "."
    end.
Proof.
  intros Hp Hm Hc. exists (emailOptions env m p).
  split; [now apply POST_sends |].
  unfold emailOptions; cbn [subjectLine html text].
  rewrite orElse_provided, renderHtml_htmlBody, renderText_textBody.
  unfold htmlBody, textBody, synthesized.
  destruct (provided p) as [s|].
  - split; [reflexivity |]. split; [apply title_occurs |]. split.
    { do 7 apply occurs_append_r. apply occurs_append_l.
      exists "", "". now rewrite append_empty_r. }
    do 7 apply occurs_append_r.
    exists ")", (nl ++ "Message:" ++ nl ++ message p ++ nl ++ nl ++ "---" ++ nl ++
      "Note: You can reply directly to this email to respond to " ++ name p ++ ".").
    rewrite !append_assoc. reflexivity.
  - split; [reflexivity |]. split; [| reflexivity].
    apply (title_occurs ("New message from " ++ escapeAll (name p))).
Qed.

Lemma subject_line_of_sent_message_witness :
  exists msg,
    sends (POST Sample.env Sample.directory Sample.resend
             (Some (submission Sample.annTitled))) = [msg] /\
    subjectLine msg = "Hours" /\
    occurs "<title>Hours</title>" (html msg) /\
    occurs "<p><strong>Subject:</strong> Hours</p>" (html msg) /\
    occurs (nl ++ "Subject: Hours" ++ nl) (text msg).
Proof.
  apply (subject_line_of_sent_message Sample.env Sample.directory Sample.resend
           (submission Sample.annTitled) Sample.annTitled
           (Staff.Own (Staff.mkStaff "Gus" "gus@yourdomain.com"))).
  - vm_compute. reflexivity.
  - vm_compute. reflexivity.
  - reflexivity.
Defined.

(** C10, as stated, fails: an accepted submission whose subject is the
    empty string gets the synthesized line as its subject header, but its
    plain-text body does not hold that line. *)
Lemma blank_subject_text_has_no_synthesized_subject :
  sendSchema (submission Sample.annBlank) = inl Sample.annBlank /\
  subject Sample.annBlank = Some "" /\
  ~ occurs (synthesized (name Sample.annBlank)) (renderText Sample.annBlank).
Proof.
  split; [vm_compute; reflexivity |]. split; [reflexivity |].
  apply not_includes_occurs. vm_compute. reflexivity.
Qed.

Lemma sendSchema_blank_subject (i n e m : string) :
  sendSchema (submission (mkPayload i n e (Some "") m)) =
  match sendSchema (submission (mkPayload i n e None m)) with
  | inl _ => inl (mkPayload i n e (Some "") m)
  | inr issues => inr issues
  end.
Proof.
  unfold sendSchema, submission. cbn [staffId name email subject message app Zod.member
    String.eqb Ascii.eqb Bool.eqb Zod.parseString].
  change (Zod.runChecks [Zod.Max 200] "") with (@nil Zod.IssueCode).
  cbn [Zod.at_ map app].
  destruct (Zod.at_ "staffId" _ ++ _)%list; reflexivity.
Qed.

(** C10, amended.  A subject that is the empty string is treated as no
    subject at all: the one submission is accepted exactly when the other
    is, the handler answers and acts alike on both, and the message it
    sends is the same.  That message has [New message from] and the raw
    name as its subject header and, with the escaped name, as its HTML
    title; its plain-text body has no subject line. *)
Theorem blank_subject_is_no_subject (env : Env) (dir : gmap string Staff.StaffRecord)
    (resend : Resend) (member : Staff.Member) (i n e m : string) :
  let blank := mkPayload i n e (Some "") m in
  let none := mkPayload i n e None m in
  (sendSchema (submission blank) = inl blank <-> sendSchema (submission none) = inl none) /\
  POST env dir resend (Some (submission blank)) = POST env dir resend (Some (submission none)) /\
  emailOptions env member blank = emailOptions env member none /\
  subjectLine (emailOptions env member blank) = "New message from " ++ n /\
  occurs ("<title>New message from " ++ escapeAll n ++ "</title>")
         (html (emailOptions env member blank)) /\
  text (emailOptions env member blank) =
    "New Contact Form Submission" ++ nl ++ nl ++
    "From: " ++ n ++ " (" ++ e ++ ")" ++ nl ++ nl ++ nl ++
    "Message:" ++ nl ++ m ++ nl ++ nl ++ "---" ++ nl ++
    "Note: You can reply directly to this email to respond to " ++ n ++ ".".
Proof.
  intros blank none.
  assert (Hsame : forall mem, emailOptions env mem blank = emailOptions env mem none)
    by reflexivity.
  split; [| split; [| split; [apply Hsame | split; [reflexivity | split]]]].
  - unfold blank, none. rewrite sendSchema_blank_subject.
    destruct (sendSchema (submission (mkPayload i n e None m))) as [q|issues] eqn:E.
    + split; intros _; [| reflexivity].
      apply sendSchema_inl in E as (ms & Es & Hc & _).
      destruct (carries_submission (mkPayload i n e None m)) as (ms' & Es' & Hc').
      rewrite Es' in Es. injection Es as ->.
      now rewrite (carries_unique ms _ _ Hc' Hc).
    + split; discriminate.
  - unfold POST. cbn [bind tryCatch ret throw]. unfold blank, none.
    rewrite sendSchema_blank_subject.
    destruct (sendSchema (submission (mkPayload i n e None m))) as [q|issues] eqn:E;
      [| reflexivity].
    apply sendSchema_inl in E as (ms & Es & Hc & _).
    destruct (carries_submission (mkPayload i n e None m)) as (ms' & Es' & Hc').
    rewrite Es' in Es. injection Es as ->.
    rewrite <- (carries_unique ms _ _ Hc' Hc).
    cbn [staffId]. destruct (Staff.get dir i) as [mem|]; reflexivity.
  - rewrite Hsame. unfold emailOptions; cbn [html].
    rewrite renderHtml_htmlBody. unfold htmlBody, provided, synthesized; cbn [subject name].
    apply (title_occurs ("New message from " ++ escapeAll n)).
  - rewrite Hsame. unfold emailOptions; cbn [text].
    rewrite renderText_textBody. reflexivity.
Qed.

(** ** C8: a submission that fails validation *)

(** C8, as stated, fails: the answer carries no per-field detail.  An empty
    name and a malformed e-mail address fail validation with different
    issues, and the handler answers both in the same way. *)
Lemma invalid_answers_do_not_tell_the_field :
  sendSchema (submission Sample.annNoName) = inr [Zod.mkIssue ["name"] Zod.too_small] /\
  sendSchema (submission Sample.annBadEmail) = inr [Zod.mkIssue ["email"] Zod.invalid_email] /\
  response (Sample.post Sample.annNoName) = response (Sample.post Sample.annBadEmail) /\
  response (Sample.post Sample.annNoName) =
    Some (mkResponse 400 false (Some "Invalid request data")).
Proof. vm_compute. repeat split; reflexivity. Qed.

(** C8, amended.  For every document that fails validation the handler
    answers with status 400 and the fixed error [Invalid request data], the
    same for every failure; the issues are written to the server log only;
    and no e-mail is sent. *)
Theorem invalid_input_is_answered_without_sending (env : Env)
    (dir : gmap string Staff.StaffRecord) (resend : Resend)
    (body : Zod.json) (issues : list Zod.Issue) :
  sendSchema body = inr issues ->
  response (POST env dir resend (Some body)) =
    Some (mkResponse 400 false (Some "Invalid request data")) /\
  events (POST env dir resend (Some body)) =
    [ConsoleError "API error:" (Caught (ZodError issues))] /\
  sends (POST env dir resend (Some body)) = [].
Proof.
  intros H. unfold response, events, sends, events.
  rewrite (POST_invalid env dir resend body issues H). repeat split; reflexivity.
Qed.

Lemma invalid_input_is_answered_without_sending_witness :
  response (POST Sample.env Sample.directory Sample.resend
              (Some (submission Sample.annNoName))) =
    Some (mkResponse 400 false (Some "Invalid request data")) /\
  events (POST Sample.env Sample.directory Sample.resend
            (Some (submission Sample.annNoName))) =
    [ConsoleError "API error:" (Caught (ZodError [Zod.mkIssue ["name"] Zod.too_small]))] /\
  sends (POST Sample.env Sample.directory Sample.resend
           (Some (submission Sample.annNoName))) = [].
Proof.
  apply (invalid_input_is_answered_without_sending Sample.env Sample.directory
           Sample.resend (submission Sample.annNoName)).
  vm_compute. reflexivity.
Defined.

(** ** C2: a staff identifier that is malformed or unknown *)

(** C2, as stated, fails: the two answers differ, so the caller can tell a
    malformed identifier from one that is merely absent. *)
Lemma malformed_and_absent_are_told_apart :
  String.length (staffId Sample.annShortId) = 4 /\
  String.length (staffId Sample.annOtherId) = 16 /\
  sendSchema (submission Sample.annOtherId) = inl Sample.annOtherId /\
  Staff.get Sample.directory (staffId Sample.annShortId) = None /\
  Staff.get Sample.directory (staffId Sample.annOtherId) = None /\
  response (Sample.post Sample.annShortId) <> response (Sample.post Sample.annOtherId).
Proof. vm_compute. repeat split; try reflexivity. discriminate. Qed.

(** C2, amended.  A document whose staffId is malformed (missing, not a
    string, or a string shorter than 8 or longer than 128 characters) is
    answered with status 400 and the error [Invalid request data]; an
    accepted submission whose staffId the directory does not resolve is
    answered with status 400 and the error [Invalid staff ID].  Both answers
    have the shape of a client error ([ok] false, status 400), nothing is
    sent in either case, and their error texts differ. *)
Theorem malformed_and_absent_answers (env : Env) (dir : gmap string Staff.StaffRecord)
    (resend : Resend) :
  (forall body, malformedStaffId body ->
     response (POST env dir resend (Some body)) =
       Some (mkResponse 400 false (Some "Invalid request data")) /\
     sends (POST env dir resend (Some body)) = []) /\
  (forall body p, sendSchema body = inl p -> Staff.get dir (staffId p) = None ->
     response (POST env dir resend (Some body)) =
       Some (mkResponse 400 false (Some "Invalid staff ID")) /\
     sends (POST env dir resend (Some body)) = []) /\
  mkResponse 400 false (Some "Invalid request data") <>
  mkResponse 400 false (Some "Invalid staff ID").
Proof.
  split; [| split; [| discriminate]].
  - intros body Hbad.
    assert (Hrej : rejected body).
    { destruct (sendSchema_total body) as [[p Hp]|]; [| assumption].
      apply sendSchema_inl in Hp as (ms & -> & (C1 & _) & (B1 & _)).
      specialize (Hbad ms (staffId p) eq_refl C1). lia. }
    destruct Hrej as [issues Hissues].
    unfold response, sends, events.
    rewrite (POST_invalid env dir resend _ issues Hissues). split; reflexivity.
  - intros body p Hp Hget. unfold response, sends, events.
    rewrite (POST_unknown env dir resend body p Hp Hget). split; reflexivity.
Qed.

Lemma malformed_and_absent_answers_witness :
  response (Sample.post Sample.annShortId) =
    Some (mkResponse 400 false (Some "Invalid request data")) /\
  response (Sample.post Sample.annOtherId) =
    Some (mkResponse 400 false (Some "Invalid staff ID")).
Proof.
  destruct (malformed_and_absent_answers Sample.env Sample.directory Sample.resend)
    as (Hmal & Habs & _).
  split.
  - apply Hmal. intros ms i [= <-] [= <-]. left. simpl. lia.
  - apply (Habs (submission Sample.annOtherId) Sample.annOtherId); vm_compute; reflexivity.
Defined.

(** ** Identifier derivation *)

Lemma length_hex (bs : list Z) : String.length (Sha256.hex bs) = 2 * List.length bs.
Proof. induction bs as [|b bs IH]; simpl; [reflexivity | rewrite IH; lia]. Qed.

Lemma length_sha256 (msg : list Z) : List.length (Sha256.sha256 msg) = 32.
Proof. reflexivity. Qed.

Lemma length_hmac (key msg : list Z) : List.length (Sha256.hmac key msg) = 32.
Proof. apply length_sha256. Qed.

Lemma substring_hex (n : nat) (bs : list Z) :
  String.substring 0 (2 * n) (Sha256.hex bs) = Sha256.hex (firstn n bs).
Proof.
  revert bs. induction n as [|n IH]; intros bs.
  - simpl. now destruct (Sha256.hex bs).
  - destruct bs as [|b bs]; [reflexivity |].
    replace (2 * S n) with (S (S (2 * n))) by lia.
    cbn [Sha256.hex String.substring firstn]. now rewrite IH.
Qed.

Lemma hexDigit_lower (n : Z) : isLowerHex (Sha256.hexDigit n) = true.
Proof.
  unfold Sha256.hexDigit.
  pose proof (Z.mod_pos_bound n 16 eq_refl) as Hd.
  assert (Hcases : In (n mod 16)%Z [0; 1; 2; 3; 4; 5; 6; 7; 8; 9; 10; 11; 12; 13; 14; 15]%Z).
  { simpl. lia. }
  simpl in Hcases.
  repeat (destruct Hcases as [<-|Hcases]; [reflexivity |]). contradiction.
Qed.

Lemma hex_lower (bs : list Z) : Zod.all isLowerHex (Sha256.hex bs) = true.
Proof.
  induction bs as [|b bs IH]; [reflexivity |].
  simpl. now rewrite !hexDigit_lower, IH.
Qed.

(** The padded message is a whole number of 64-byte blocks, and the fuel of
    [blocks] is enough to take all of them. *)
Lemma length_pad (msg : list Z) : (Z.of_nat (List.length (Sha256.pad msg)) mod 64 = 0)%Z.
Proof.
  unfold Sha256.pad. rewrite !length_app, repeat_length. cbn [List.length Sha256.bytesOf].
  pose proof (Z.mod_pos_bound (55 - Z.of_nat (List.length msg)) 64 eq_refl) as Hk.
  rewrite !Nat2Z.inj_add, Z2Nat.id by lia.
  replace (Z.of_nat (List.length msg) +
           (Z.of_nat 1 + ((55 - Z.of_nat (List.length msg)) mod 64 + Z.of_nat 8)))%Z
    with ((55 - Z.of_nat (List.length msg)) mod 64 + (Z.of_nat (List.length msg) + 9))%Z
    by lia.
  rewrite Zplus_mod_idemp_l.
  replace (55 - Z.of_nat (List.length msg) + (Z.of_nat (List.length msg) + 9))%Z
    with (1 * 64)%Z by lia.
  apply Z_mod_mult.
Qed.

Lemma concat_blocks (fuel : nat) (ws : list Z) :
  List.length ws <= fuel -> concat (Sha256.blocks fuel ws) = ws.
Proof.
  revert ws. induction fuel as [|fuel IH]; intros ws Hlen.
  - destruct ws; [reflexivity | simpl in Hlen; lia].
  - destruct ws as [|w ws]; [reflexivity |].
    cbn [Sha256.blocks concat]. rewrite IH.
    + apply firstn_skipn.
    + rewrite length_skipn. simpl in *. lia.
Qed.

Lemma makeHashedId_hex (env : Env) (firstName : string) :
  makeHashedId env firstName =
  Sha256.hex (firstn 8 (Sha256.hmac (Js.utf8 (Js.orElse (HASH_SECRET env) "default-secret"))
                                    (Js.utf8 (normalizeName firstName)))).
Proof. unfold makeHashedId. exact (substring_hex 8 _). Qed.

Lemma lettersOnly_lower_strip (s : string) :
  Js.removeNonLowerLetters (Js.toLowerCase s) = lettersOnly s.
Proof.
  induction s as [|c s IH]; [reflexivity |].
  cbn [Js.toLowerCase Js.removeNonLowerLetters lettersOnly]. rewrite IH.
  destruct c as [[] [] [] [] [] [] [] []]; reflexivity.
Qed.

Lemma lettersOnly_append (a b : string) :
  lettersOnly (a ++ b) = lettersOnly a ++ lettersOnly b.
Proof.
  induction a as [|c a IH]; [reflexivity |].
  cbn [append lettersOnly]. rewrite IH.
  destruct (Js.between 65 90 c); [reflexivity |].
  destruct (Js.between 97 122 c); reflexivity.
Qed.

Lemma lettersOnly_cons (c : ascii) (s : string) :
  lettersOnly (String c s) = lettersOnly (String c "") ++ lettersOnly s.
Proof. exact (lettersOnly_append (String c "") s). Qed.

Lemma lettersOnly_space (c : ascii) :
  Js.isWhiteSpace c = true -> lettersOnly (String c "") = "".
Proof. destruct c as [[] [] [] [] [] [] [] []]; vm_compute; congruence. Qed.

Lemma lettersOnly_skip (c : ascii) (s : string) :
  Js.isWhiteSpace c = true -> lettersOnly (String c s) = lettersOnly s.
Proof. intros H. now rewrite lettersOnly_cons, lettersOnly_space. Qed.

Lemma lettersOnly_trimStart (s : string) : lettersOnly (Js.trimStart s) = lettersOnly s.
Proof.
  induction s as [|c s IH]; [reflexivity |].
  cbn [Js.trimStart]. destruct (Js.isWhiteSpace c) eqn:E; [| reflexivity].
  now rewrite IH, lettersOnly_skip.
Qed.

Lemma lettersOnly_trimEnd (s : string) : lettersOnly (Js.trimEnd s) = lettersOnly s.
Proof.
  induction s as [|c s IH]; [reflexivity |].
  cbn [Js.trimEnd]. rewrite (lettersOnly_cons c s), <- IH.
  destruct (Js.trimEnd s) as [|d t].
  - destruct (Js.isWhiteSpace c) eqn:E.
    + now rewrite lettersOnly_space.
    + now rewrite append_empty_r.
  - now rewrite <- lettersOnly_cons.
Qed.

Lemma lettersOnly_collapse (r : string) (s : string) :
  lettersOnly r = "" ->
  lettersOnly (Js.replaceWhiteSpaceRuns r s) = lettersOnly s.
Proof.
  intros Hr. induction s as [|c s IH]; [reflexivity |].
  cbn [Js.replaceWhiteSpaceRuns]. destruct (Js.isWhiteSpace c) eqn:E.
  - rewrite (lettersOnly_skip c s E). destruct s as [|d s]; [exact Hr |].
    destruct (Js.isWhiteSpace d); [exact IH |].
    now rewrite lettersOnly_append, Hr, IH.
  - now rewrite lettersOnly_cons, IH, <- lettersOnly_cons.
Qed.

Lemma normalizeName_lettersOnly (s : string) : normalizeName s = lettersOnly s.
Proof.
  unfold normalizeName, Js.trim.
  rewrite lettersOnly_lower_strip, lettersOnly_collapse by reflexivity.
  now rewrite lettersOnly_trimEnd, lettersOnly_trimStart.
Qed.

Lemma lettersOnly_lower (s : string) : Zod.all isLowerLetter (lettersOnly s) = true.
Proof.
  induction s as [|c s IH]; [reflexivity |].
  cbn [lettersOnly].
  destruct (Js.between 65 90 c) eqn:U; [| destruct (Js.between 97 122 c) eqn:L].
  - cbn [Zod.all]. rewrite IH, andb_true_r. revert U.
    destruct c as [[] [] [] [] [] [] [] []]; vm_compute; congruence.
  - cbn [Zod.all]. now rewrite IH, andb_true_r.
  - exact IH.
Qed.

(** ** C6: the identifier is a truncated HMAC of the normalized name *)

(** C6.  Identifier derivation is defined on every string.  The normalized
    name (trim, white-space runs to one space, lower case, everything but
    a..z removed) is the lower-cased letters of the name, and nothing but
    the letters a..z.  The identifier is the hexadecimal form of the first
    eight bytes of HMAC-SHA256 of that string under the secret, that is the
    first 16 characters of the digest in lower-case hexadecimal: always 16
    characters out of 0..9 and a..f.  A name without letters is hashed as
    the empty string and gets an identifier like any other. *)
Theorem identifier_is_truncated_hmac (env : Env) (firstName : string) :
  let secret := Js.orElse (HASH_SECRET env) "default-secret" in
  let normalized := normalizeName firstName in
  normalized = lettersOnly firstName /\
  Zod.all isLowerLetter normalized = true /\
  makeHashedId env firstName =
    Sha256.hex (firstn 8 (Sha256.hmac (Js.utf8 secret) (Js.utf8 normalized))) /\
  String.length (makeHashedId env firstName) = 16 /\
  Zod.all isLowerHex (makeHashedId env firstName) = true /\
  (lettersOnly firstName = "" ->
   makeHashedId env firstName = Sha256.hex (firstn 8 (Sha256.hmac (Js.utf8 secret) []))).
Proof.
  intros secret normalized.
  split; [apply normalizeName_lettersOnly |].
  split; [unfold normalized; rewrite normalizeName_lettersOnly; apply lettersOnly_lower |].
  split; [apply makeHashedId_hex |].
  split; [| split].
  - rewrite makeHashedId_hex, length_hex, length_firstn, length_hmac. reflexivity.
  - rewrite makeHashedId_hex. apply hex_lower.
  - intros Hempty. rewrite makeHashedId_hex, normalizeName_lettersOnly, Hempty. reflexivity.
Qed.

Lemma identifier_is_truncated_hmac_witness :
  makeHashedId Sample.env " 42 " =
    Sha256.hex (firstn 8 (Sha256.hmac (Js.utf8 "default-secret") [])) /\
  makeHashedId Sample.env " 42 " = "885d6eea6a0e7a85".
Proof.
  split.
  - apply (identifier_is_truncated_hmac Sample.env " 42 "). reflexivity.
  - vm_compute. reflexivity.
Defined.

(** ** C7: names that normalize alike get the same identifier *)

(** C7.  Under any one secret, [Jo Doe], [jo doe] and [ JO   DOE ] have the
    same identifier, and so has [Jo1 Doe!]: all four normalize to
    [jodoe]. *)
Theorem normalization_collapse (env : Env) :
  makeHashedId env "Jo Doe" = makeHashedId env "jo doe" /\
  makeHashedId env "jo doe" = makeHashedId env " JO   DOE " /\
  makeHashedId env "Jo1 Doe!" = makeHashedId env "Jo Doe" /\
  normalizeName "Jo1 Doe!" = "jodoe".
Proof.
  assert (H : forall a b, normalizeName a = normalizeName b ->
                          makeHashedId env a = makeHashedId env b).
  { intros a b E. unfold makeHashedId. now rewrite E. }
  repeat split; try apply H; reflexivity.
Qed.

(** ** C9: the fallback secret *)

(** C9.  When [HASH_SECRET] is unset or empty, derivation still yields an
    identifier of 16 characters: it is keyed with [default-secret], so it is
    the function [fallbackId] of the normalized name, the same for every
    such environment and for every name with that normalized form, and
    anyone can compute it; for Gus it is the identifier shown in the
    README. *)
Theorem fallback_secret_is_predictable (env : Env) (firstName : string) :
  HASH_SECRET env = None \/ HASH_SECRET env = Some "" ->
  makeHashedId env firstName = fallbackId (normalizeName firstName) /\
  String.length (makeHashedId env firstName) = 16 /\
  (forall env' other,
     HASH_SECRET env' = None \/ HASH_SECRET env' = Some "" ->
     normalizeName other = normalizeName firstName ->
     makeHashedId env' other = makeHashedId env firstName) /\
  fallbackId (normalizeName "Gus") = "f90c7debd89d693a".
Proof.
  assert (H : forall e n, HASH_SECRET e = None \/ HASH_SECRET e = Some "" ->
                          makeHashedId e n = fallbackId (normalizeName n)).
  { intros e n [E|E]; rewrite makeHashedId_hex, E; reflexivity. }
  intros Henv. split; [now apply H |]. split; [| split].
  - rewrite makeHashedId_hex, length_hex, length_firstn, length_hmac. reflexivity.
  - intros env' other Henv' Hsame. now rewrite !H, Hsame.
  - vm_compute. reflexivity.
Qed.

Lemma fallback_secret_is_predictable_witness :
  makeHashedId Sample.env "Gus" = fallbackId (normalizeName "Gus").
Proof.
  exact (proj1 (fallback_secret_is_predictable Sample.env "Gus" (or_introl eq_refl))).
Defined.

(** * Further properties *)

(** ** src/lib/id.ts *)

Lemma lettersOnly_fixed (s : string) :
  Zod.all isLowerLetter s = true -> lettersOnly s = s.
Proof.
  induction s as [|c s IH]; [reflexivity |].
  cbn [Zod.all lettersOnly]. rewrite andb_true_iff. intros [Hc Hs]. rewrite (IH Hs).
  revert Hc. destruct c as [[] [] [] [] [] [] [] []]; vm_compute; congruence.
Qed.

Lemma lettersOnly_notLetter (s : string) :
  Zod.all Measure.notLetter s = true -> lettersOnly s = "".
Proof.
  induction s as [|c s IH]; [reflexivity |].
  cbn [Zod.all lettersOnly]. rewrite andb_true_iff. intros [Hc Hs]. rewrite (IH Hs).
  revert Hc. destruct c as [[] [] [] [] [] [] [] []]; vm_compute; congruence.
Qed.

(** X1.  Normalizing twice is normalizing once: a normalized name is its own
    normal form. *)
Theorem normalizeName_idempotent (s : string) :
  normalizeName (normalizeName s) = normalizeName s.
Proof.
  rewrite (normalizeName_lettersOnly (normalizeName s)).
  apply lettersOnly_fixed. rewrite normalizeName_lettersOnly. apply lettersOnly_lower.
Qed.

(** X2.  Normalization goes through concatenation, although trimming and
    collapsing do not: the normal form of [a ++ b] is the normal forms of [a]
    and [b] put together, so where a name is split by spaces is lost. *)
Theorem normalizeName_append (a b : string) :
  normalizeName (a ++ b) = normalizeName a ++ normalizeName b.
Proof. rewrite !normalizeName_lettersOnly. apply lettersOnly_append. Qed.

(** X3.  Characters of the range U+0000..U+00FF that are not ASCII letters
    (digits, punctuation, white space, Latin-1 signs and accented letters)
    never change the identifier, wherever they are put into the name and
    whatever the secret. *)
Theorem identifier_ignores_non_letters (env : Env) (a junk b : string) :
  Zod.all Measure.notLetter junk = true ->
  makeHashedId env (a ++ junk ++ b) = makeHashedId env (a ++ b).
Proof.
  intros Hjunk. unfold makeHashedId.
  rewrite !normalizeName_lettersOnly, !lettersOnly_append.
  now rewrite (lettersOnly_notLetter junk Hjunk).
Qed.

Lemma identifier_ignores_non_letters_witness :
  makeHashedId Sample.env ("Ann" ++ " -4. " ++ "a") = makeHashedId Sample.env ("Ann" ++ "a").
Proof.
  apply (identifier_ignores_non_letters Sample.env "Ann" " -4. " "a"). reflexivity.
Defined.

Lemma hex_not_inherited (id : string) :
  Zod.all isLowerHex id = true ->
  existsb (String.eqb id) Staff.objectPrototypeKeys = false.
Proof.
  intros Hhex. destruct (existsb _ _) eqn:E; [| reflexivity].
  apply existsb_exists in E as (k & Hin & Hk). apply String.eqb_eq in Hk. subst k.
  cbn [Staff.objectPrototypeKeys In] in Hin.
  repeat (destruct Hin as [<-|Hin]; [vm_compute in Hhex; discriminate |]).
  contradiction.
Qed.

Lemma length_makeHashedId (env : Env) (firstName : string) :
  String.length (makeHashedId env firstName) = 16.
Proof. rewrite makeHashedId_hex, length_hex, length_firstn, length_hmac. reflexivity. Qed.

(** X4.  Every derived identifier can be used as a staffId: it has a length
    the validator admits, and looking it up finds an own entry of the
    directory or nothing (no member of [Object.prototype] has such a
    name), so the page of the identifier exists exactly when the directory
    holds it. *)
Theorem derived_identifier_is_a_plain_key (env : Env) (firstName : string)
    (dir : gmap string Staff.StaffRecord) :
  let id := makeHashedId env firstName in
  (8 <= String.length id <= 128)%nat /\
  Staff.get dir id = option_map Staff.Own (dir !! id) /\
  (FormById.FormPage dir id = FormById.NotFound <-> dir !! id = None).
Proof.
  intros id.
  assert (Hget : Staff.get dir id = option_map Staff.Own (dir !! id)).
  { unfold Staff.get. destruct (dir !! id); [reflexivity |].
    rewrite hex_not_inherited; [reflexivity |].
    unfold id. rewrite makeHashedId_hex. apply hex_lower. }
  split; [unfold id; rewrite length_makeHashedId; lia |].
  split; [exact Hget |].
  unfold FormById.FormPage. rewrite Hget.
  destruct (dir !! id); simpl; split; intros H; try discriminate; reflexivity.
Qed.

(** ** sanitizeHtml *)

Lemma escapeAll_fixed (s : string) : Zod.all inert s = true -> escapeAll s = s.
Proof.
  induction s as [|c s IH]; [reflexivity |].
  cbn [Zod.all escapeAll]. rewrite andb_true_iff. intros [Hc Hs]. rewrite (IH Hs).
  revert Hc. destruct c as [[] [] [] [] [] [] [] []]; vm_compute; congruence.
Qed.

(** X5.  Escaping never escapes twice: a second pass of [sanitizeHtml]
    changes nothing (the ampersand of an entity is left alone). *)
Theorem sanitizeHtml_idempotent (s : string) :
  sanitizeHtml (sanitizeHtml s) = sanitizeHtml s.
Proof.
  rewrite (sanitizeHtml_escapeAll (sanitizeHtml s)).
  apply escapeAll_fixed. rewrite sanitizeHtml_escapeAll. apply escapeAll_inert.
Qed.

Lemma length_append (a b : string) :
  String.length (a ++ b) = String.length a + String.length b.
Proof. induction a as [|c a IH]; simpl; [reflexivity | now rewrite IH]. Qed.

Lemma length_entity (c : ascii) : 1 <= String.length (entity c) <= 6.
Proof. destruct c as [[] [] [] [] [] [] [] []]; vm_compute; lia. Qed.

(** X6.  Escaping never shortens a text and makes it at most six times as
    long. *)
Theorem sanitizeHtml_length (s : string) :
  String.length s <= String.length (sanitizeHtml s) <= 6 * String.length s.
Proof.
  rewrite sanitizeHtml_escapeAll. induction s as [|c s IH]; [simpl; lia |].
  cbn [escapeAll]. rewrite length_append. pose proof (length_entity c).
  cbn [String.length]. lia.
Qed.

(** ** The HTML body keeps the markup of its template *)

Lemma count_append (c : ascii) (a b : string) :
  Measure.count c (a ++ b) = Measure.count c a + Measure.count c b.
Proof. induction a as [|x a IH]; simpl; [reflexivity | rewrite IH; lia]. Qed.

Lemma count_none (P : ascii -> bool) (c : ascii) (s : string) :
  P c = false -> Zod.all P s = true -> Measure.count c s = 0.
Proof.
  intros Hc. induction s as [|a s IH]; [reflexivity |].
  cbn [Zod.all Measure.count]. rewrite andb_true_iff. intros [Ha Hs].
  rewrite (IH Hs). destruct (Ascii.eqb_spec a c) as [->|_]; [congruence | reflexivity].
Qed.

Lemma markup_not_inert (c : ascii) : Measure.markup c = true -> inert c = false.
Proof. destruct c as [[] [] [] [] [] [] [] []]; vm_compute; congruence. Qed.

Lemma markup_not_emailChar (c : ascii) : Measure.markup c = true -> emailChar c = false.
Proof. destruct c as [[] [] [] [] [] [] [] []]; vm_compute; congruence. Qed.

Lemma count_escapeAll (c : ascii) (s : string) :
  Measure.markup c = true -> Measure.count c (escapeAll s) = 0.
Proof.
  intros Hc. apply (count_none inert); [now apply markup_not_inert | apply escapeAll_inert].
Qed.

(** X7.  In the HTML body of an accepted submission every [<], [>], [/]
    and double quote belongs to the template: the body has exactly as many
    of each as the template rendered with empty fields, so nothing a sender
    types can open, close or alter a tag. *)
Theorem html_markup_is_the_templates (body : Zod.json) (p : Payload) (c : ascii) :
  sendSchema body = inl p ->
  Measure.markup c = true ->
  Measure.count c (renderHtml p) = Measure.count c (renderHtml (Measure.hollow p)).
Proof.
  intros Hp Hc. apply sendSchema_inl in Hp as (ms & _ & _ & Hb).
  destruct Hb as (_ & _ & He & _). apply isEmail_chars in He.
  pose proof (count_none emailChar c _ (markup_not_emailChar c Hc) He) as Hemail.
  rewrite !renderHtml_htmlBody. unfold htmlBody, synthesized, Measure.hollow, provided.
  cbn [subject name email message].
  destruct (subject p) as [[|x s]|];
    rewrite ?count_append, ?count_escapeAll, ?Hemail by exact Hc; reflexivity.
Qed.

Lemma html_markup_is_the_templates_witness :
  Measure.count "<" (renderHtml Sample.bob) =
  Measure.count "<" (renderHtml (Measure.hollow Sample.bob)).
Proof.
  apply (html_markup_is_the_templates (submission Sample.bob) Sample.bob "<").
  - vm_compute. reflexivity.
  - reflexivity.
Defined.

(** ** The request handler, path by path *)

Lemma POST_cases (env : Env) (dir : gmap string Staff.StaffRecord) (resend : Resend)
    (request : option Zod.json) :
  POST env dir resend request =
  match request with
  | None =>
      ([ConsoleError "API error:" (Caught SyntaxError)],
       inl (mkResponse 500 false (Some "Internal server error")))
  | Some body =>
      match sendSchema body with
      | inr issues =>
          ([ConsoleError "API error:" (Caught (ZodError issues))],
           inl (mkResponse 400 false (Some "Invalid request data")))
      | inl p =>
          match Staff.get dir (staffId p) with
          | None => ([], inl (mkResponse 400 false (Some "Invalid staff ID")))
          | Some m =>
              if construct resend (RESEND_API_KEY env) then
                match send resend (emailOptions env m p) with
                | SendData =>
                    ([EmailsSend (emailOptions env m p);
                      ConsoleLog ("Email sent successfully to staff ID: " ++ staffId p)],
                     inl (mkResponse 200 true None))
                | SendError =>
                    ([EmailsSend (emailOptions env m p);
                      ConsoleError "Resend error:" ProviderError],
                     inl (mkResponse 500 false (Some "Failed to send email")))
                | SendThrows =>
                    ([EmailsSend (emailOptions env m p);
                      ConsoleError "API error:" (Caught ResendError)],
                     inl (mkResponse 500 false (Some "Internal server error")))
                end
              else
                ([ConsoleError "API error:" (Caught ResendError)],
                 inl (mkResponse 500 false (Some "Internal server error")))
          end
      end
  end.
Proof.
  unfold POST. destruct request as [body|]; cbn; [| reflexivity].
  destruct (sendSchema body) as [p|issues]; cbn; [| reflexivity].
  destruct (Staff.get dir (staffId p)) as [m|]; cbn; [| reflexivity].
  destruct (construct resend (RESEND_API_KEY env)); cbn; [| reflexivity].
  destruct (send resend (emailOptions env m p)); reflexivity.
Qed.

Ltac post_cases env dir resend request :=
  rewrite (POST_cases env dir resend request);
  let body := fresh "body" in
  destruct request as [body|];
  [ let p := fresh "p" in let issues := fresh "issues" in
    let Hs := fresh "Hs" in
    destruct (sendSchema body) as [p|issues] eqn:Hs;
    [ let m := fresh "m" in let Hg := fresh "Hg" in
      destruct (Staff.get dir (staffId p)) as [m|] eqn:Hg;
      [ let Hc := fresh "Hc" in
        destruct (construct resend (RESEND_API_KEY env)) eqn:Hc;
        [ let Hd := fresh "Hd" in
          destruct (send resend (emailOptions env m p)) eqn:Hd | ] | ] | ] | ].

(** X8.  Whatever is posted, the handler answers, and its answer is one of
    five: success, or one of four fixed error texts with status 400 or 500.
    Nothing else (no validation detail, no exception text, no staff data)
    reaches the caller. *)
Theorem POST_answer_is_one_of_five (env : Env) (dir : gmap string Staff.StaffRecord)
    (resend : Resend) (request : option Zod.json) :
  exists r, response (POST env dir resend request) = Some r /\
    In r [ mkResponse 200 true None;
           mkResponse 400 false (Some "Invalid request data");
           mkResponse 400 false (Some "Invalid staff ID");
           mkResponse 500 false (Some "Failed to send email");
           mkResponse 500 false (Some "Internal server error") ].
Proof.
  unfold response. post_cases env dir resend request;
    (eexists; split; [reflexivity |]); simpl; tauto.
Qed.

(** X9.  The answer is [ok: true] exactly when the document was accepted,
    its staffId resolved, the provider's client could be built and the
    provider took the message; the handler has then sent that one message
    and logged one line, which names the staffId and nothing else of the
    request or the directory. *)
Theorem POST_ok_iff_delivered (env : Env) (dir : gmap string Staff.StaffRecord)
    (resend : Resend) (request : option Zod.json) :
  response (POST env dir resend request) = Some (mkResponse 200 true None) <->
  exists body p m,
    request = Some body /\ sendSchema body = inl p /\
    Staff.get dir (staffId p) = Some m /\
    construct resend (RESEND_API_KEY env) = true /\
    send resend (emailOptions env m p) = SendData /\
    events (POST env dir resend request) =
      [EmailsSend (emailOptions env m p);
       ConsoleLog ("Email sent successfully to staff ID: " ++ staffId p)].
Proof.
  unfold response, events. post_cases env dir resend request; cbn [fst snd]; split;
    try discriminate;
    try (intros _; do 3 eexists; repeat split; eassumption);
    intros (b' & p' & m' & E1 & E2 & E3 & E4 & E5 & _); simplify_eq; congruence.
Qed.

(** X10.  A request makes the handler send at most one message, never a
    second try; and it sends only for an accepted document whose staffId
    resolved, with the submitter's address as reply-to and the resolved
    member's address as recipient. *)
Theorem POST_sends_at_most_once (env : Env) (dir : gmap string Staff.StaffRecord)
    (resend : Resend) (request : option Zod.json) :
  sends (POST env dir resend request) = [] \/
  exists body p m,
    request = Some body /\ sendSchema body = inl p /\
    Staff.get dir (staffId p) = Some m /\
    sends (POST env dir resend request) = [emailOptions env m p] /\
    replyTo (emailOptions env m p) = email p /\
    to (emailOptions env m p) = Staff.emailOf m.
Proof.
  unfold sends, events. post_cases env dir resend request; cbn;
    first [ now left | right; do 3 eexists; repeat split; eassumption ].
Qed.

(** X11.  Which error is answered.  [Invalid request data]: the document was
    rejected.  [Invalid staff ID]: it was accepted and its staffId did not
    resolve.  [Failed to send email]: the provider reported an error for the
    message.  [Internal server error]: the body was not JSON, or the
    provider's client could not be built, or sending threw. *)
Theorem POST_error_table (env : Env) (dir : gmap string Staff.StaffRecord)
    (resend : Resend) (request : option Zod.json) :
  let answer := response (POST env dir resend request) in
  (answer = Some (mkResponse 400 false (Some "Invalid request data")) <->
   exists body issues, request = Some body /\ sendSchema body = inr issues) /\
  (answer = Some (mkResponse 400 false (Some "Invalid staff ID")) <->
   exists body p, request = Some body /\ sendSchema body = inl p /\
     Staff.get dir (staffId p) = None) /\
  (answer = Some (mkResponse 500 false (Some "Failed to send email")) <->
   exists body p m, request = Some body /\ sendSchema body = inl p /\
     Staff.get dir (staffId p) = Some m /\
     construct resend (RESEND_API_KEY env) = true /\
     send resend (emailOptions env m p) = SendError) /\
  (answer = Some (mkResponse 500 false (Some "Internal server error")) <->
   request = None \/
   exists body p m, request = Some body /\ sendSchema body = inl p /\
     Staff.get dir (staffId p) = Some m /\
     (construct resend (RESEND_API_KEY env) = false \/
      (construct resend (RESEND_API_KEY env) = true /\
       send resend (emailOptions env m p) = SendThrows))).
Proof.
  intros answer. unfold answer, response.
  post_cases env dir resend request; cbn [snd];
    (split; [| split; [| split]]);
    (split;
     [ intros H; first
         [ discriminate H
         | now left
         | right; do 3 eexists; repeat split; eauto; fail
         | do 3 eexists; repeat split; eauto; fail
         | do 2 eexists; repeat split; eauto; fail ]
     | intros H;
       repeat match goal with
              | G : _ \/ _ |- _ => destruct G
              | G : exists _, _ |- _ => destruct G
              | G : _ /\ _ |- _ => destruct G
              end;
       simplify_eq; first [reflexivity | congruence] ]).
Qed.

Lemma get_none_same_keys (dir dir' : gmap string Staff.StaffRecord) (k : string) :
  (forall k, is_Some (dir !! k) <-> is_Some (dir' !! k)) ->
  Staff.get dir k = None <-> Staff.get dir' k = None.
Proof.
  intros Hkeys. unfold Staff.get. specialize (Hkeys k).
  destruct (dir !! k) as [r|] eqn:E, (dir' !! k) as [r'|] eqn:E'.
  - split; discriminate.
  - destruct (proj1 Hkeys (ex_intro _ r eq_refl)) as [x Hx]. discriminate.
  - destruct (proj2 Hkeys (ex_intro _ r' eq_refl)) as [x Hx]. discriminate.
  - reflexivity.
Qed.

Lemma emailOptions_withTo (env : Env) (m m' : Staff.Member) (p : Payload) :
  emailOptions env m' p = Measure.withTo (Staff.emailOf m') (emailOptions env m p).
Proof. reflexivity. Qed.

(** X12.  The addresses of the directory reach the provider and nothing
    else.  For two directories with the same identifiers and a provider whose
    verdict does not depend on the recipient, the handler gives the same
    answer and writes the same log, whatever records stand behind the
    identifiers. *)
Theorem staff_records_stay_out_of_answers_and_logs (env : Env)
    (dir dir' : gmap string Staff.StaffRecord) (resend : Resend)
    (request : option Zod.json) :
  (forall k, is_Some (dir !! k) <-> is_Some (dir' !! k)) ->
  (forall t m, send resend (Measure.withTo t m) = send resend m) ->
  response (POST env dir resend request) = response (POST env dir' resend request) /\
  Measure.logged (events (POST env dir resend request)) =
  Measure.logged (events (POST env dir' resend request)).
Proof.
  intros Hkeys Hsend. unfold response, events.
  rewrite (POST_cases env dir resend request), (POST_cases env dir' resend request).
  destruct request as [body|]; [| split; reflexivity].
  destruct (sendSchema body) as [p|issues]; [| split; reflexivity].
  pose proof (get_none_same_keys dir dir' (staffId p) Hkeys) as Hnone.
  destruct (Staff.get dir (staffId p)) as [m|], (Staff.get dir' (staffId p)) as [m'|].
  - destruct (construct resend (RESEND_API_KEY env)); [| split; reflexivity].
    rewrite (emailOptions_withTo env m m' p), Hsend.
    destruct (send resend (emailOptions env m p)); split; reflexivity.
  - discriminate (proj2 Hnone eq_refl).
  - discriminate (proj1 Hnone eq_refl).
  - split; reflexivity.
Qed.

Lemma staff_records_stay_out_of_answers_and_logs_witness :
  response (Sample.post Sample.ann) =
  response (POST Sample.env {[ Sample.gusId := Staff.mkStaff "Augustus" "a@yourdomain.com" ]}
              Sample.resend (Some (submission Sample.ann))).
Proof.
  apply (staff_records_stay_out_of_answers_and_logs Sample.env Sample.directory
           {[ Sample.gusId := Staff.mkStaff "Augustus" "a@yourdomain.com" ]}
           Sample.resend (Some (submission Sample.ann))).
  - intros k. unfold Sample.directory. rewrite !lookup_singleton_is_Some. reflexivity.
  - reflexivity.
Defined.

(** ** The validator *)

(** X13.  The validator reads the five members it knows and nothing else:
    two documents that agree on them are parsed alike, so further members,
    their order and their values are of no consequence. *)
Theorem sendSchema_reads_five_members (ms ms' : list (string * Zod.json)) :
  (forall k, In k ["staffId"; "name"; "email"; "subject"; "message"] ->
     Zod.member k ms = Zod.member k ms') ->
  sendSchema (Zod.JObject ms) = sendSchema (Zod.JObject ms').
Proof.
  intros H. unfold sendSchema.
  rewrite (H "staffId"), (H "name"), (H "email"), (H "subject"), (H "message")
    by (simpl; tauto).
  reflexivity.
Qed.

Lemma sendSchema_reads_five_members_witness :
  sendSchema (Zod.JObject [("admin", Zod.JBool true); ("name", Zod.JString "Ann")]) =
  sendSchema (Zod.JObject [("name", Zod.JString "Ann"); ("note", Zod.JNull)]).
Proof.
  apply sendSchema_reads_five_members.
  intros k Hk. simpl in Hk.
  repeat (destruct Hk as [<-|Hk]; [reflexivity |]). contradiction.
Defined.

Lemma parseString_not_string (optional : bool) (checks : list Zod.Check) (v : Zod.json) :
  (forall s, v <> Zod.JString s) ->
  Zod.parseString optional checks (Some v) = (None, [Zod.invalid_type]).
Proof. intros H. destruct v; try reflexivity. destruct (H s eq_refl). Qed.

(** X14.  A member that is present but not a string makes the document
    rejected, for the optional subject as for the required members: [null]
    is not taken for an absent subject. *)
Theorem sendSchema_rejects_non_strings (ms : list (string * Zod.json))
    (k : string) (v : Zod.json) :
  In k ["staffId"; "name"; "email"; "subject"; "message"] ->
  Zod.member k ms = Some v ->
  (forall s, v <> Zod.JString s) ->
  rejected (Zod.JObject ms).
Proof.
  intros Hk Hv Hns.
  destruct (sendSchema_total (Zod.JObject ms)) as [[p Hp]|]; [| assumption].
  exfalso. apply sendSchema_inl in Hp as (ms0 & E & (C1 & C2 & C3 & C4 & C5) & _).
  injection E as <-. simpl in Hk.
  destruct Hk as [<-|[<-|[<-|[<-|[<-|[]]]]]].
  - rewrite Hv in C1. injection C1 as ->. now apply (Hns (staffId p)).
  - rewrite Hv in C2. injection C2 as ->. now apply (Hns (name p)).
  - rewrite Hv in C3. injection C3 as ->. now apply (Hns (email p)).
  - rewrite Hv in C4. destruct (subject p) as [s|]; [| discriminate].
    injection C4 as ->. now apply (Hns s).
  - rewrite Hv in C5. injection C5 as ->. now apply (Hns (message p)).
Qed.

Lemma sendSchema_rejects_non_strings_witness :
  rejected (Zod.JObject [("staffId", Zod.JString Sample.gusId); ("name", Zod.JString "Ann");
                         ("email", Zod.JString "ann@example.com"); ("subject", Zod.JNull);
                         ("message", Zod.JString "Hi")]).
Proof.
  apply (sendSchema_rejects_non_strings _ "subject" Zod.JNull).
  - simpl. tauto.
  - reflexivity.
  - discriminate.
Defined.

Lemma at_paths (k : string) (codes : list Zod.IssueCode) (i : Zod.Issue) :
  In i (Zod.at_ k codes) -> Zod.path i = [k].
Proof. unfold Zod.at_. rewrite in_map_iff. now intros (c & <- & _). Qed.

(** X15.  A rejection always comes with at least one issue, and every
    issue points at one of the five members, or at the document itself when
    that is not an object. *)
Theorem sendSchema_issues_name_a_member (body : Zod.json) (issues : list Zod.Issue) :
  sendSchema body = inr issues ->
  issues <> [] /\
  forall i, In i issues ->
    In (Zod.path i) [[]; ["staffId"]; ["name"]; ["email"]; ["subject"]; ["message"]].
Proof.
  unfold sendSchema. destruct body as [| | | | |ms];
    try (intros [= <-]; split; [discriminate | intros i [<-|[]]; simpl; tauto]).
  destruct (Zod.parseString false _ (Zod.member "staffId" ms)) as [v1 i1] eqn:E1.
  destruct (Zod.parseString false _ (Zod.member "name" ms)) as [v2 i2] eqn:E2.
  destruct (Zod.parseString false _ (Zod.member "email" ms)) as [v3 i3] eqn:E3.
  destruct (Zod.parseString true _ (Zod.member "subject" ms)) as [v4 i4] eqn:E4.
  destruct (Zod.parseString false _ (Zod.member "message" ms)) as [v5 i5] eqn:E5.
  set (all := (Zod.at_ "staffId" i1 ++ Zod.at_ "name" i2 ++ Zod.at_ "email" i3 ++
               Zod.at_ "subject" i4 ++ Zod.at_ "message" i5)%list).
  intros H.
  assert (Hall : issues = all).
  { destruct v1, v2, v3, v5, all; congruence. }
  assert (Hne : all <> []).
  { intros Hnil. pose proof Hnil as Hnil'. unfold all in Hnil.
    apply app_eq_nil in Hnil as [F1 Hnil]. apply app_eq_nil in Hnil as [F2 Hnil].
    apply app_eq_nil in Hnil as [F3 Hnil]. apply app_eq_nil in Hnil as [F4 F5].
    apply at_empty in F1, F2, F3, F5. subst i1 i2 i3 i5.
    apply parseString_accepts in E1 as [(? & _ & -> & _)|(? & _)]; [| discriminate].
    apply parseString_accepts in E2 as [(? & _ & -> & _)|(? & _)]; [| discriminate].
    apply parseString_accepts in E3 as [(? & _ & -> & _)|(? & _)]; [| discriminate].
    apply parseString_accepts in E5 as [(? & _ & -> & _)|(? & _)]; [| discriminate].
    rewrite Hnil' in H. discriminate H. }
  subst issues. split; [exact Hne |].
  intros i Hi. unfold all in Hi. rewrite !in_app_iff in Hi.
  destruct Hi as [Hi|[Hi|[Hi|[Hi|Hi]]]]; apply at_paths in Hi; rewrite Hi; simpl; tauto.
Qed.

Lemma sendSchema_issues_name_a_member_witness :
  [Zod.mkIssue ["name"] Zod.too_small] <> [] /\
  forall i, In i [Zod.mkIssue ["name"] Zod.too_small] ->
    In (Zod.path i) [[]; ["staffId"]; ["name"]; ["email"]; ["subject"]; ["message"]].
Proof.
  apply (sendSchema_issues_name_a_member (submission Sample.annNoName)).
  vm_compute. reflexivity.
Defined.

Lemma length_splitOn (sep : ascii) (s : string) :
  List.length (Zod.splitOn sep s) = S (Measure.count sep s).
Proof.
  induction s as [|c s IH]; [reflexivity |].
  cbn [Zod.splitOn Measure.count].
  destruct (Zod.splitOn sep s) as [|part parts]; [discriminate |].
  destruct (Ascii.eqb c sep); cbn [List.length] in *; lia.
Qed.

Lemma emailChar_not_space (c : ascii) : emailChar c = true -> Js.isWhiteSpace c = false.
Proof. destruct c as [[] [] [] [] [] [] [] []]; vm_compute; congruence. Qed.

(** X16.  The e-mail address of an accepted submission, which becomes the
    reply-to of the message, holds exactly one [@], is made of letters,
    digits and [_ ' + - . @] only, and so has no white space or line break
    in it. *)
Theorem accepted_email_is_one_plain_address (body : Zod.json) (p : Payload) :
  sendSchema body = inl p ->
  Measure.count "@" (email p) = 1 /\
  Zod.all emailChar (email p) = true /\
  Zod.all (fun c => negb (Js.isWhiteSpace c)) (email p) = true.
Proof.
  intros Hp. apply sendSchema_inl in Hp as (ms & _ & _ & Hb).
  destruct Hb as (_ & _ & He & _).
  pose proof (isEmail_chars _ He) as Hchars. split; [| split; [exact Hchars |]].
  - unfold Zod.isEmail in He. apply andb_true_iff in He as [_ He].
    pose proof (length_splitOn "@" (email p)) as Hlen.
    destruct (Zod.splitOn "@" (email p)) as [|l [|d [|]]]; try discriminate.
    simpl in Hlen. lia.
  - revert Hchars. apply all_impl. intros c Hc. now rewrite (emailChar_not_space c Hc).
Qed.

Lemma accepted_email_is_one_plain_address_witness :
  Measure.count "@" (email Sample.ann) = 1 /\
  Zod.all emailChar (email Sample.ann) = true /\
  Zod.all (fun c => negb (Js.isWhiteSpace c)) (email Sample.ann) = true.
Proof.
  apply (accepted_email_is_one_plain_address (submission Sample.ann) Sample.ann).
  vm_compute. reflexivity.
Defined.

(** ** The pages *)

(** X17.  The page of an identifier and the handler agree: for an accepted
    submission the handler answers [Invalid staff ID] exactly when the page
    [/form/<staffId>] is not found. *)
Theorem page_and_handler_agree (env : Env) (dir : gmap string Staff.StaffRecord)
    (resend : Resend) (body : Zod.json) (p : Payload) :
  sendSchema body = inl p ->
  (FormById.FormPage dir (staffId p) = FormById.NotFound <->
   response (POST env dir resend (Some body)) =
     Some (mkResponse 400 false (Some "Invalid staff ID"))).
Proof.
  intros Hp. unfold FormById.FormPage, response.
  rewrite (POST_cases env dir resend (Some body)), Hp.
  destruct (Staff.get dir (staffId p)) as [m|]; [| split; reflexivity].
  destruct (construct resend (RESEND_API_KEY env));
    [destruct (send resend (emailOptions env m p)) |]; split; discriminate.
Qed.

Lemma page_and_handler_agree_witness :
  FormById.FormPage Sample.directory (staffId Sample.annOtherId) = FormById.NotFound <->
  response (Sample.post Sample.annOtherId) =
    Some (mkResponse 400 false (Some "Invalid staff ID")).
Proof.
  apply (page_and_handler_agree Sample.env Sample.directory Sample.resend
           (submission Sample.annOtherId) Sample.annOtherId).
  vm_compute. reflexivity.
Defined.

(** ** The contact form *)

Lemma at_under (k : string) (rules : list (Zod.Check * option string)) (s : string) :
  Zod.at_ k (Zod.runChecks (map fst rules) s) =
  map Measure.serverIssue (ContactForm.under k (ContactForm.runRules rules s)).
Proof.
  unfold Zod.at_, Zod.runChecks, ContactForm.under, ContactForm.runRules.
  induction rules as [|[c m] rules IH]; [reflexivity |].
  cbn [map flat_map fst]. rewrite !map_app, IH.
  destruct (Zod.passes c s); reflexivity.
Qed.

(** X18.  The schema of the form and the schema of the handler are the same
    check: the form's data pass the one exactly when the document posted for
    them passes the other, and a failure is found in the same members, for
    the same reasons, in the same order. *)
Theorem form_and_handler_validate_alike (data : ContactForm.FormData) :
  sendSchema (submission data) =
  match ContactForm.formSchema data with
  | inl _ => inl data
  | inr issues => inr (map Measure.serverIssue issues)
  end.
Proof.
  destruct (carries_submission data) as (ms & -> & (M1 & M2 & M3 & M4 & M5)).
  unfold sendSchema, ContactForm.formSchema. rewrite M1, M2, M3, M4, M5.
  destruct data as [i n e su m]; cbn [staffId name email subject message].
  change [Zod.Min 8; Zod.Max 128] with (map fst [(Zod.Min 8, @None string); (Zod.Max 128, None)]).
  change [Zod.Min 1; Zod.Max 120]
    with (map fst [(Zod.Min 1, Some "Name is required");
                   (Zod.Max 120, Some "Name must be less than 120 characters")]).
  change [Zod.Email; Zod.Max 254]
    with (map fst [(Zod.Email, Some "Please enter a valid email");
                   (Zod.Max 254, Some "Email must be less than 254 characters")]).
  change [Zod.Max 200]
    with (map fst [(Zod.Max 200, Some "Subject must be less than 200 characters")]).
  change [Zod.Min 1; Zod.Max 5000]
    with (map fst [(Zod.Min 1, Some "Message is required");
                   (Zod.Max 5000, Some "Message must be less than 5000 characters")]).
  destruct su as [s|]; cbn [Zod.parseString option_map]; rewrite !at_under;
    change (Zod.at_ "subject" []) with (map Measure.serverIssue []);
    rewrite <- !map_app;
    match goal with |- context [map Measure.serverIssue ?l] => destruct l end;
    reflexivity.
Qed.

Lemma formSchema_withinBounds (data : ContactForm.FormData) :
  (exists d, ContactForm.formSchema data = inl d) <-> withinBounds data.
Proof.
  pose proof (form_and_handler_validate_alike data) as H.
  pose proof (sendSchema_submission data) as [Hyes Hno].
  destruct (ContactForm.formSchema data) as [d|issues]; split.
  - intros _. apply sendSchema_inl in H as (ms & _ & _ & Hb). exact Hb.
  - eauto.
  - intros [d Hd]. discriminate.
  - intros Hb. rewrite (Hyes Hb) in H. discriminate.
Qed.

Lemma fieldErrors_lookup (k : string) (issues : list ContactForm.FormIssue)
    (acc : gmap string ContactForm.Message) :
  k <> "" ->
  fold_left
    (fun acc err =>
       match ContactForm.key err with
       | EmptyString => acc
       | key => <[key := ContactForm.shown err]> acc
       end) issues acc !! k =
  match Measure.lastShown k issues with
  | Some m => Some m
  | None => acc !! k
  end.
Proof.
  intros Hk. revert acc. induction issues as [|i rest IH]; intros acc; [reflexivity |].
  cbn [fold_left Measure.lastShown]. rewrite IH.
  destruct (Measure.lastShown k rest); [reflexivity |].
  destruct (ContactForm.key i) as [|c key] eqn:Ekey.
  - destruct (String.eqb_spec "" k) as [E|_]; [congruence | reflexivity].
  - destruct (String.eqb_spec (String c key) k) as [<-|Hne].
    + apply lookup_insert_eq.
    + now apply lookup_insert_ne.
Qed.

Lemma lastShown_app (k : string) (a b : list ContactForm.FormIssue) :
  Measure.lastShown k (a ++ b)%list =
  match Measure.lastShown k b with
  | Some m => Some m
  | None => Measure.lastShown k a
  end.
Proof.
  induction a as [|i a IH]; cbn [app Measure.lastShown].
  - now destruct (Measure.lastShown k b).
  - rewrite IH. now destruct (Measure.lastShown k b).
Qed.

Lemma lastShown_other (k k' : string) (found : list (Zod.IssueCode * ContactForm.Message)) :
  k' <> k -> Measure.lastShown k (ContactForm.under k' found) = None.
Proof.
  intros Hne. induction found as [|f found IH]; [reflexivity |].
  cbn [ContactForm.under map Measure.lastShown ContactForm.key].
  unfold ContactForm.under in IH. rewrite IH.
  destruct (String.eqb_spec k' k); [contradiction | reflexivity].
Qed.

Lemma validateForm_errors (st : ContactForm.State) :
  ContactForm.errors (fst (ContactForm.validateForm true st)) =
  ContactForm.fieldErrors
    match ContactForm.formSchema (ContactForm.formData st) with
    | inl _ => []
    | inr issues => issues
    end.
Proof.
  unfold ContactForm.validateForm.
  destruct (ContactForm.formSchema (ContactForm.formData st)); reflexivity.
Qed.

Lemma formSchema_issues (data : ContactForm.FormData) :
  match ContactForm.formSchema data with
  | inl _ => []
  | inr issues => issues
  end =
  (ContactForm.under "staffId"
     (ContactForm.runRules [(Zod.Min 8, None); (Zod.Max 128, None)] (staffId data)) ++
   ContactForm.under "name"
     (ContactForm.runRules
        [(Zod.Min 1, Some "Name is required");
         (Zod.Max 120, Some "Name must be less than 120 characters")] (name data)) ++
   ContactForm.under "email"
     (ContactForm.runRules
        [(Zod.Email, Some "Please enter a valid email");
         (Zod.Max 254, Some "Email must be less than 254 characters")] (email data)) ++
   match subject data with
   | Some s =>
       ContactForm.under "subject"
         (ContactForm.runRules
            [(Zod.Max 200, Some "Subject must be less than 200 characters")] s)
   | None => []
   end ++
   ContactForm.under "message"
     (ContactForm.runRules
        [(Zod.Min 1, Some "Message is required");
         (Zod.Max 5000, Some "Message must be less than 5000 characters")]
        (message data)))%list.
Proof.
  unfold ContactForm.formSchema.
  match goal with |- match (match ?l with _ => _ end) with _ => _ end = _ => destruct l end;
    reflexivity.
Qed.

Lemma lastShown_required (k : string) (hi : nat) (mlo mhi s : string) :
  Measure.lastShown k
    (ContactForm.under k
       (ContactForm.runRules [(Zod.Min 1, Some mlo); (Zod.Max hi, Some mhi)] s)) =
  if (hi <? String.length s)%nat then Some (ContactForm.Custom mhi)
  else if (String.length s =? 0)%nat then Some (ContactForm.Custom mlo) else None.
Proof.
  unfold ContactForm.runRules, Zod.passes. cbn [flat_map].
  destruct (Nat.leb_spec 1 (String.length s)), (Nat.leb_spec (String.length s) hi),
           (Nat.ltb_spec hi (String.length s)), (Nat.eqb_spec (String.length s) 0);
    try lia;
    cbn [app ContactForm.under map Measure.lastShown ContactForm.key ContactForm.shown snd];
    rewrite ?String.eqb_refl; reflexivity.
Qed.

Lemma lastShown_email (k : string) (hi : nat) (mbad mhi s : string) :
  Measure.lastShown k
    (ContactForm.under k
       (ContactForm.runRules [(Zod.Email, Some mbad); (Zod.Max hi, Some mhi)] s)) =
  if (hi <? String.length s)%nat then Some (ContactForm.Custom mhi)
  else if Zod.isEmail s then None else Some (ContactForm.Custom mbad).
Proof.
  unfold ContactForm.runRules, Zod.passes. cbn [flat_map].
  destruct (Zod.isEmail s), (Nat.leb_spec (String.length s) hi),
           (Nat.ltb_spec hi (String.length s));
    try lia;
    cbn [app ContactForm.under map Measure.lastShown ContactForm.key ContactForm.shown snd];
    rewrite ?String.eqb_refl; reflexivity.
Qed.

Lemma lastShown_max (k : string) (hi : nat) (mhi s : string) :
  Measure.lastShown k
    (ContactForm.under k (ContactForm.runRules [(Zod.Max hi, Some mhi)] s)) =
  if (hi <? String.length s)%nat then Some (ContactForm.Custom mhi) else None.
Proof.
  unfold ContactForm.runRules, Zod.passes. cbn [flat_map].
  destruct (Nat.leb_spec (String.length s) hi), (Nat.ltb_spec hi (String.length s));
    try lia;
    cbn [app ContactForm.under map Measure.lastShown ContactForm.key ContactForm.shown snd];
    rewrite ?String.eqb_refl; reflexivity.
Qed.

Ltac last_shown k :=
  rewrite ?lastShown_app;
  try match goal with
      | |- context [match subject ?d with _ => _ end] => destruct (subject d)
      end;
  repeat match goal with
         | |- context [Measure.lastShown k (ContactForm.under ?k' ?f)] =>
             rewrite (lastShown_other k k' f) by discriminate
         end;
  rewrite ?lastShown_required, ?lastShown_email, ?lastShown_max;
  cbn [Measure.lastShown];
  repeat match goal with
         | |- context [if ?b then _ else _] => destruct b
         end;
  reflexivity.

Lemma validateForm_throws (st : ContactForm.State) :
  ~ withinBounds (ContactForm.formData st) ->
  ContactForm.validateForm false st = (st, ContactForm.Throws).
Proof.
  intros Hb. unfold ContactForm.validateForm.
  destruct (ContactForm.formSchema (ContactForm.formData st)) as [d|issues] eqn:E;
    [| reflexivity].
  exfalso. apply Hb. apply formSchema_withinBounds. eauto.
Qed.

(** X19.  What a failed check of the form leaves at the inputs depends on
    the [ZodError] the schema throws.  Where it has the member [errors]
    (zod 3), each input shows the text of the last rule its value breaks,
    and none where it breaks no rule; the texts that ask for less than 120,
    254, 200 and 5000 characters appear only above those lengths, a value
    of exactly that length being accepted.  Where it has not (zod 4), the
    check of data out of bounds throws and leaves the state, field errors
    included, as it was. *)
Theorem validateForm_shows_the_last_broken_rule (errorsMember : bool)
    (st : ContactForm.State) :
  let d := ContactForm.formData st in
  let shown := ContactForm.errors (fst (ContactForm.validateForm errorsMember st)) in
  (errorsMember = true ->
   shown !! "name" =
     (if (120 <? String.length (name d))%nat
      then Some (ContactForm.Custom "Name must be less than 120 characters")
      else if (String.length (name d) =? 0)%nat
           then Some (ContactForm.Custom "Name is required") else None) /\
   shown !! "email" =
     (if (254 <? String.length (email d))%nat
      then Some (ContactForm.Custom "Email must be less than 254 characters")
      else if Zod.isEmail (email d) then None
           else Some (ContactForm.Custom "Please enter a valid email")) /\
   shown !! "subject" =
     match subject d with
     | Some s =>
         if (200 <? String.length s)%nat
         then Some (ContactForm.Custom "Subject must be less than 200 characters")
         else None
     | None => None
     end /\
   shown !! "message" =
     (if (5000 <? String.length (message d))%nat
      then Some (ContactForm.Custom "Message must be less than 5000 characters")
      else if (String.length (message d) =? 0)%nat
           then Some (ContactForm.Custom "Message is required") else None)) /\
  (errorsMember = false -> ~ withinBounds d ->
   ContactForm.validateForm errorsMember st = (st, ContactForm.Throws)).
Proof.
  intros d shown. split.
  - intros ->. unfold shown. rewrite validateForm_errors, formSchema_issues.
    unfold ContactForm.fieldErrors. fold d.
    repeat split; rewrite fieldErrors_lookup by discriminate; rewrite lookup_empty.
    + last_shown "name".
    + last_shown "email".
    + last_shown "subject".
    + last_shown "message".
  - intros -> Hb. now apply validateForm_throws.
Qed.

Lemma validateForm_shows_the_last_broken_rule_witness :
  ContactForm.errors
    (fst (ContactForm.validateForm true
            (ContactForm.mkState Sample.annNoName ∅ false ContactForm.Idle ""))) !! "name" =
  Some (ContactForm.Custom "Name is required").
Proof.
  apply (validateForm_shows_the_last_broken_rule true
           (ContactForm.mkState Sample.annNoName ∅ false ContactForm.Idle "")).
  reflexivity.
Defined.

(** X20.  Typing into a field takes away the error shown at that field and
    no other, and checks nothing: no error is added and the outcome of the
    last submission stays on display. *)
Theorem typing_clears_its_own_error_only (field : ContactForm.Field) (value : string)
    (st : ContactForm.State) :
  let st' := ContactForm.handleInputChange field value st in
  ContactForm.truthyMessage (ContactForm.errors st' !! ContactForm.keyOf field) = false /\
  (forall k, k <> ContactForm.keyOf field ->
     ContactForm.errors st' !! k = ContactForm.errors st !! k) /\
  ContactForm.submitStatus st' = ContactForm.submitStatus st /\
  ContactForm.submitMessage st' = ContactForm.submitMessage st.
Proof.
  intros st'. unfold st', ContactForm.handleInputChange. cbn [ContactForm.errors
    ContactForm.submitStatus ContactForm.submitMessage].
  destruct (ContactForm.truthyMessage (ContactForm.errors st !! ContactForm.keyOf field))
    eqn:E.
  - split; [| split; [| split]]; try reflexivity.
    + now rewrite lookup_delete_eq.
    + intros k Hk. now rewrite lookup_delete_ne.
  - split; [exact E |]. repeat split.
Qed.

Lemma typing_clears_its_own_error_only_witness :
  let st := ContactForm.mkState Sample.annNoName
              {[ "name" := ContactForm.Custom "Name is required" ]}
              false ContactForm.Idle "" in
  ContactForm.errors (ContactForm.handleInputChange ContactForm.Name "Ann" st) !! "email" =
  ContactForm.errors st !! "email".
Proof.
  intros st.
  apply (typing_clears_its_own_error_only ContactForm.Name "Ann" st). discriminate.
Defined.

Lemma formSchema_inl (data d : ContactForm.FormData) :
  ContactForm.formSchema data = inl d -> d = data.
Proof.
  unfold ContactForm.formSchema.
  match goal with |- match ?l with _ => _ end = _ -> _ => destruct l end; congruence.
Qed.

Lemma validateForm_invalid (errorsMember : bool) (st : ContactForm.State) :
  ~ withinBounds (ContactForm.formData st) ->
  snd (ContactForm.validateForm errorsMember st) <> ContactForm.Returns true /\
  ContactForm.formData (fst (ContactForm.validateForm errorsMember st)) =
    ContactForm.formData st /\
  ContactForm.submitStatus (fst (ContactForm.validateForm errorsMember st)) =
    ContactForm.submitStatus st.
Proof.
  intros Hb. unfold ContactForm.validateForm.
  destruct (ContactForm.formSchema (ContactForm.formData st)) as [d|issues] eqn:E.
  - exfalso. apply Hb. apply formSchema_withinBounds. eauto.
  - destruct errorsMember; repeat split; discriminate.
Qed.

Lemma validateForm_valid (errorsMember : bool) (st : ContactForm.State) :
  withinBounds (ContactForm.formData st) ->
  ContactForm.validateForm errorsMember st =
  (ContactForm.mkState (ContactForm.formData st) ∅ (ContactForm.isSubmitting st)
     (ContactForm.submitStatus st) (ContactForm.submitMessage st), ContactForm.Returns true).
Proof.
  intros Hb. apply formSchema_withinBounds in Hb as [d Hd].
  unfold ContactForm.validateForm. now rewrite Hd.
Qed.

Lemma handleSubmit_invalid (errorsMember : bool) (fetch : Zod.json -> ContactForm.FetchResult)
    (sid : string) (st : ContactForm.State) :
  ~ withinBounds (ContactForm.formData st) ->
  ContactForm.handleSubmit errorsMember fetch sid st =
  fst (ContactForm.validateForm errorsMember st).
Proof.
  intros Hb. destruct (validateForm_invalid errorsMember st Hb) as (Hv & _).
  unfold ContactForm.handleSubmit.
  destruct (ContactForm.validateForm errorsMember st) as [st1 [[|]|]]; cbn [fst snd] in *;
    [congruence | reflexivity | reflexivity].
Qed.

(** X21.  A form whose data are out of bounds is not posted: submitting it
    ends in the same state whatever the network would have done, with the
    data and the displayed outcome as they were.  This holds whether the
    failed check returns false or throws. *)
Theorem invalid_form_is_not_posted (errorsMember : bool)
    (fetch fetch' : Zod.json -> ContactForm.FetchResult)
    (sid : string) (st : ContactForm.State) :
  ~ withinBounds (ContactForm.formData st) ->
  ContactForm.handleSubmit errorsMember fetch sid st =
    ContactForm.handleSubmit errorsMember fetch' sid st /\
  ContactForm.formData (ContactForm.handleSubmit errorsMember fetch sid st) =
    ContactForm.formData st /\
  ContactForm.submitStatus (ContactForm.handleSubmit errorsMember fetch sid st) =
    ContactForm.submitStatus st.
Proof.
  intros Hb. rewrite !handleSubmit_invalid by exact Hb.
  destruct (validateForm_invalid errorsMember st Hb) as (_ & Hd & Hs). auto.
Qed.

Lemma invalid_form_is_not_posted_witness :
  ContactForm.handleSubmit false (fun _ => ContactForm.NetworkError) Sample.gusId
    (ContactForm.initial Sample.gusId) =
  ContactForm.handleSubmit false
    (ContactForm.server Sample.env Sample.directory Sample.resend)
    Sample.gusId (ContactForm.initial Sample.gusId).
Proof.
  apply (invalid_form_is_not_posted false _ _ Sample.gusId (ContactForm.initial Sample.gusId)).
  intros (_ & H & _). simpl in H. lia.
Defined.

(** X22.  Submitting a form whose data are within bounds to the handler.
    The form reports success exactly when the handler answered [ok]; it is
    then emptied, keeping its staffId.  Otherwise it reports an error, keeps
    what was typed, and shows the very error text of the handler's answer,
    which is one of three and never [Invalid request data].  In both cases
    it is no longer submitting and shows no field error. *)
Theorem valid_form_shows_the_handlers_answer (errorsMember : bool) (env : Env)
    (dir : gmap string Staff.StaffRecord) (resend : Resend)
    (sid : string) (st : ContactForm.State) :
  withinBounds (ContactForm.formData st) ->
  let st' :=
    ContactForm.handleSubmit errorsMember (ContactForm.server env dir resend) sid st in
  let answer := response (POST env dir resend (Some (submission (ContactForm.formData st)))) in
  (ContactForm.submitStatus st' = ContactForm.Success <->
   answer = Some (mkResponse 200 true None)) /\
  (ContactForm.submitStatus st' = ContactForm.Success ->
   ContactForm.formData st' = ContactForm.blank sid /\
   ContactForm.submitMessage st' = "Message sent successfully!") /\
  (ContactForm.submitStatus st' <> ContactForm.Success ->
   ContactForm.submitStatus st' = ContactForm.Error /\
   ContactForm.formData st' = ContactForm.formData st /\
   (exists code, answer = Some (mkResponse code false (Some (ContactForm.submitMessage st')))) /\
   In (ContactForm.submitMessage st')
      ["Invalid staff ID"; "Failed to send email"; "Internal server error"]) /\
  ContactForm.isSubmitting st' = false /\
  ContactForm.errors st' = ∅.
Proof.
  intros Hb st' answer. unfold st', answer, ContactForm.handleSubmit.
  rewrite (validateForm_valid errorsMember st Hb).
  cbn [ContactForm.formData ContactForm.errors].
  unfold ContactForm.server, response.
  rewrite (POST_cases env dir resend (Some (submission (ContactForm.formData st)))).
  rewrite (proj1 (sendSchema_submission (ContactForm.formData st)) Hb).
  destruct (Staff.get dir (staffId (ContactForm.formData st))) as [m|];
    [destruct (construct resend (RESEND_API_KEY env));
     [destruct (send resend (emailOptions env m (ContactForm.formData st))) |] |];
    cbn;
    (split; [split; [discriminate || reflexivity | discriminate || reflexivity] |]);
    (split; [intros H; first [discriminate H | split; reflexivity] |]);
    (split; [intros H; first [now destruct H
                             | split; [reflexivity |]; split; [reflexivity |];
                               split; [eexists; reflexivity | tauto]] |]);
    split; reflexivity.
Qed.

Lemma valid_form_shows_the_handlers_answer_witness :
  ContactForm.submitStatus
    (ContactForm.handleSubmit true
       (ContactForm.server Sample.env Sample.directory Sample.resend)
       Sample.gusId (ContactForm.mkState Sample.ann ∅ false ContactForm.Idle "")) =
    ContactForm.Success <->
  response (Sample.post Sample.ann) = Some (mkResponse 200 true None).
Proof.
  apply (valid_form_shows_the_handlers_answer true Sample.env Sample.directory Sample.resend
           Sample.gusId (ContactForm.mkState Sample.ann ∅ false ContactForm.Idle "")).
  unfold withinBounds. simpl. repeat split; try lia; discriminate.
Defined.

(** X23.  The page [/form?sid=...] shows the form for every staffId that is
    not empty, also for one the directory does not resolve, for which the
    page [/form/<sid>] is not found.  Such a form can never bring a message
    through: whatever is typed, submitting it does not end in success. *)
Theorem query_page_opens_forms_that_cannot_send (errorsMember : bool) (env : Env)
    (dir : gmap string Staff.StaffRecord) (resend : Resend)
    (sid : string) (st : ContactForm.State) :
  sid <> "" ->
  Staff.get dir sid = None ->
  staffId (ContactForm.formData st) = sid ->
  ContactForm.submitStatus st <> ContactForm.Success ->
  FormByQuery.FormPage (Some sid) = FormByQuery.Form sid /\
  FormById.FormPage dir sid = FormById.NotFound /\
  ContactForm.submitStatus
    (ContactForm.handleSubmit errorsMember (ContactForm.server env dir resend) sid st) <>
  ContactForm.Success.
Proof.
  intros Hsid Hget Hst Hnot. split; [| split].
  - destruct sid; [contradiction | reflexivity].
  - unfold FormById.FormPage. now rewrite Hget.
  - unfold ContactForm.handleSubmit, ContactForm.validateForm.
    destruct (ContactForm.formSchema (ContactForm.formData st)) as [d|issues] eqn:E;
      [| destruct errorsMember; exact Hnot].
    cbn [ContactForm.formData ContactForm.errors].
    pose proof (form_and_handler_validate_alike (ContactForm.formData st)) as Hs.
    rewrite E in Hs.
    unfold ContactForm.server, response.
    rewrite (POST_cases env dir resend (Some (submission (ContactForm.formData st)))).
    rewrite Hs, Hst, Hget. cbn. discriminate.
Qed.

Lemma query_page_opens_forms_that_cannot_send_witness :
  FormByQuery.FormPage (Some "0123456789abcdef") = FormByQuery.Form "0123456789abcdef" /\
  FormById.FormPage Sample.directory "0123456789abcdef" = FormById.NotFound /\
  ContactForm.submitStatus
    (ContactForm.handleSubmit true
       (ContactForm.server Sample.env Sample.directory Sample.resend)
       "0123456789abcdef"
       (ContactForm.mkState Sample.annOtherId ∅ false ContactForm.Idle "")) <>
  ContactForm.Success.
Proof.
  apply (query_page_opens_forms_that_cannot_send true Sample.env Sample.directory
           Sample.resend "0123456789abcdef"
           (ContactForm.mkState Sample.annOtherId ∅ false ContactForm.Idle "")).
  - discriminate.
  - vm_compute. reflexivity.
  - reflexivity.
  - discriminate.
Defined.

Lemma trimStart_empty (s : string) :
  Js.trimStart s = "" <-> Zod.all Js.isWhiteSpace s = true.
Proof.
  induction s as [|c s IH]; [split; reflexivity |].
  cbn [Js.trimStart Zod.all]. destruct (Js.isWhiteSpace c); [exact IH |].
  split; discriminate.
Qed.

Lemma trimEnd_empty (s : string) :
  Js.trimEnd s = "" <-> Zod.all Js.isWhiteSpace s = true.
Proof.
  induction s as [|c s IH]; [split; reflexivity |].
  cbn [Js.trimEnd Zod.all].
  destruct (Js.trimEnd s) as [|d t].
  - rewrite (proj1 IH eq_refl), andb_true_r.
    destruct (Js.isWhiteSpace c); split; congruence.
  - destruct (Zod.all Js.isWhiteSpace s).
    + discriminate (proj2 IH eq_refl).
    + rewrite andb_false_r. split; discriminate.
Qed.

Lemma trim_empty (s : string) : Js.trim s = "" <-> Zod.all Js.isWhiteSpace s = true.
Proof.
  unfold Js.trim. rewrite trimEnd_empty.
  destruct (trimStart_spec s) as (l & E & Hl & Hhead).
  split.
  - intros Hall. rewrite E, all_append, Hl, Hall. reflexivity.
  - intros Hall. rewrite E, all_append, Hl in Hall. exact Hall.
Qed.

(** X24.  The label of the text area is hidden exactly when its value holds
    a character that is not white space: white space alone leaves the label
    in place. *)
Theorem textarea_label_hides_on_visible_text (value : option string) :
  ContactForm.TextArea_labelClass value = "opacity-0" <->
  exists v, value = Some v /\ Zod.all Js.isWhiteSpace v = false.
Proof.
  unfold ContactForm.TextArea_labelClass.
  destruct value as [[|c v]|]; cbn [Js.ifTruthy].
  - split; [discriminate | intros (v & [= <-] & H); discriminate].
  - pose proof (trim_empty (String c v)) as Ht.
    destruct (Js.trim (String c v)) as [|d t] eqn:Et; cbn [String.length Nat.ltb Nat.leb].
    + split; [discriminate |]. intros (v' & [= <-] & H).
      rewrite (proj1 Ht eq_refl) in H. discriminate.
    + split; [| reflexivity]. intros _. exists (String c v). split; [reflexivity |].
      destruct (Zod.all Js.isWhiteSpace (String c v)); [| reflexivity].
      discriminate (proj2 Ht eq_refl).
  - split; [discriminate | intros (v & [=] & _)].
Qed.
